(** * A calculator engine (App.tsx): shallow embedding and verification

    The React component of [src/project/src/App.tsx] keeps one
    [CalculatorState] record and replaces it through pure updater
    functions handed to [setState].  Each updater is embedded here as a
    function from the previous state to the next one.

    JavaScript values are modelled as follows.
    - A string is a Rocq [string] whose characters are read as UTF-16 code
      units below 256 (Latin-1).  Every string the component builds
      stays in that range; in particular the operator symbols are the single
      code units U+00D7 and U+00F7.
    - A number is an IEEE 754 binary64 value, [spec_float] with precision
      53 and maximal exponent 1024, with the arithmetic of the Standard
      Library's [SpecFloat] (round to nearest, ties to even).
    - [parseFloat] and [Number.prototype.toString] follow ECMA-262. *)

From Stdlib Require Import ZArith Bool List String Ascii Lia.
From Stdlib Require Import SpecFloat.
Import ListNotations.

Local Open Scope string_scope.
Local Open Scope Z_scope.

(** ** JavaScript strings *)

Module JSString.

(** [String.prototype.slice(start, end)] on code units. *)
Definition slice (s : string) (start finish : Z) : string :=
  let len := Z.of_nat (String.length s) in
  let from := if start <? 0 then Z.max (len + start) 0 else Z.min start len in
  let to := if finish <? 0 then Z.max (len + finish) 0 else Z.min finish len in
  let span := Z.max (to - from) 0 in
  substring (Z.to_nat from) (Z.to_nat span) s.

(** [s.indexOf(c)] for a one-character search string: the position of
    the first occurrence, or [-1]. *)
Fixpoint indexOf_from (s : string) (c : ascii) (pos : Z) : Z :=
  match s with
  | EmptyString => -1
  | String a rest => if Ascii.eqb a c then pos else indexOf_from rest c (pos + 1)
  end.

Definition indexOf (s : string) (c : ascii) : Z := indexOf_from s c 0.

(** Number of occurrences of a character. *)
Fixpoint count (c : ascii) (s : string) : nat :=
  match s with
  | EmptyString => O
  | String a rest => ((if Ascii.eqb a c then 1 else 0) + count c rest)%nat
  end.

(** Truthiness of a string: every string but the empty one. *)
Definition truthy (s : string) : bool := negb (s =? "")%string.

(** [a || b] on strings. *)
Definition or_else (a b : string) : string := if truthy a then a else b.

(** [a >= b] and [a <= b] on strings: lexicographic on code units. *)
Definition ge (a b : string) : bool := String.leb b a.
Definition le (a b : string) : bool := String.leb a b.

(** WhiteSpace and LineTerminator code units below 256: TAB, LF, VT,
    FF, CR, SP and NBSP. *)
Definition is_space (c : ascii) : bool :=
  let n := Z.of_nat (nat_of_ascii c) in
  ((9 <=? n) && (n <=? 13)) || (n =? 32) || (n =? 160).

Fixpoint trim_start (s : string) : string :=
  match s with
  | EmptyString => EmptyString
  | String a rest => if is_space a then trim_start rest else s
  end.

Definition is_digit (c : ascii) : bool :=
  let n := Z.of_nat (nat_of_ascii c) in (48 <=? n) && (n <=? 57).

Definition digit_value (c : ascii) : Z := Z.of_nat (nat_of_ascii c) - 48.

Definition digit_char (d : Z) : ascii := ascii_of_nat (Z.to_nat (48 + d)).

(** The longest prefix of decimal digits, and what follows it. *)
Fixpoint span_digits (s : string) : string * string :=
  match s with
  | EmptyString => (EmptyString, EmptyString)
  | String a rest =>
      if is_digit a
      then let '(ds, tl) := span_digits rest in (String a ds, tl)
      else (EmptyString, s)
  end.

(** The value of a string of decimal digits, most significant first. *)
Fixpoint digits_value_acc (s : string) (acc : Z) : Z :=
  match s with
  | EmptyString => acc
  | String a rest => digits_value_acc rest (10 * acc + digit_value a)
  end.

Definition digits_value (s : string) : Z := digits_value_acc s 0.

(** The decimal digits of a non-negative integer; [fuel] bounds their
    number. *)
Fixpoint digits_fuel (fuel : nat) (n : Z) (acc : string) : string :=
  match fuel with
  | O => acc
  | S f =>
      let acc' := String (digit_char (n mod 10)) acc in
      if n <? 10 then acc' else digits_fuel f (n / 10) acc'
  end.

Definition of_Z (n : Z) : string :=
  digits_fuel (S (Z.to_nat (Z.log2 n))) n EmptyString.

Fixpoint repeat0 (n : nat) : string :=
  match n with
  | O => EmptyString
  | S k => String "0" (repeat0 k)
  end.

(** Removes the zeros that end a string of digits. *)
Fixpoint strip_trailing_zeros (s : string) : string :=
  match s with
  | EmptyString => EmptyString
  | String a rest =>
      match strip_trailing_zeros rest with
      | EmptyString => if Ascii.eqb a "0" then EmptyString else String a EmptyString
      | r => String a r
      end
  end.

End JSString.

(** ** JavaScript numbers *)

Module JSNumber.

Definition prec : Z := 53.
Definition emax : Z := 1024.

Definition number : Type := spec_float.

Definition NaN : number := S754_nan.
Definition zero : number := S754_zero false.
Definition Infinity : number := S754_infinity false.

Definition add : number -> number -> number := SFadd prec emax.
Definition sub : number -> number -> number := SFsub prec emax.
Definition mul : number -> number -> number := SFmul prec emax.
Definition div : number -> number -> number := SFdiv prec emax.
Definition abs : number -> number := SFabs.

(** [a === b], [a > b] and [a >= b] on numbers. *)
Definition strict_eq (a b : number) : bool := SFeqb a b.
Definition gt (a b : number) : bool := SFltb b a.
Definition ge (a b : number) : bool := SFleb b a.
Definition lt (a b : number) : bool := SFltb a b.

Definition isNaN (a : number) : bool :=
  match a with S754_nan => true | _ => false end.

(** Truthiness of a number: every number but [+0], [-0] and [NaN]. *)
Definition truthy (a : number) : bool :=
  match a with
  | S754_zero _ | S754_nan => false
  | _ => true
  end.

(** [a || b] on numbers. *)
Definition or_else (a b : number) : number := if truthy a then a else b.

(** The number nearest to [m * 10^e] for an integer [m >= 0], with the
    sign [neg]: the rounding of a mathematical value of ECMA-262. *)
Definition of_decimal (neg : bool) (m e : Z) : number :=
  if m =? 0 then S754_zero neg
  else if 0 <=? e
  then binary_normalize prec emax (cond_Zopp neg (m * 10 ^ e)) 0 false
  else
    let '(q, e', l) := SFdiv_core_binary prec emax m 0 (10 ^ (- e)) 0 in
    binary_round_aux prec emax neg q e' l.

Definition of_Z (n : Z) : number := of_decimal (n <? 0) (Z.abs n) 0.

(** *** parseFloat

    The argument is trimmed at its start; the longest prefix that is a
    StrDecimalLiteral is read; without such a prefix the result is
    [NaN]. *)

(** ExponentPart, when [s] starts with a complete one; [0] otherwise. *)
Definition parse_exponent (s : string) : Z :=
  match s with
  | String c rest =>
      if Ascii.eqb c "e" || Ascii.eqb c "E" then
        let '(neg, rest') :=
          match rest with
          | String d r =>
              if Ascii.eqb d "+" then (false, r)
              else if Ascii.eqb d "-" then (true, r)
              else (false, rest)
          | EmptyString => (false, rest)
          end in
        let '(ds, _) := JSString.span_digits rest' in
        cond_Zopp neg (JSString.digits_value ds)
      else 0
  | EmptyString => 0
  end.

(** StrUnsignedDecimalLiteral with the sign read before it. *)
Definition parse_unsigned (neg : bool) (s : string) : number :=
  if String.prefix "Infinity" s then S754_infinity neg
  else
    let '(ip, r1) := JSString.span_digits s in
    match r1 with
    | String c r2 =>
        if Ascii.eqb c "." then
          let '(fp, r3) := JSString.span_digits r2 in
          if (ip =? "")%string && (fp =? "")%string then NaN
          else of_decimal neg (JSString.digits_value (ip ++ fp))
                 (parse_exponent r3 - Z.of_nat (String.length fp))
        else if (ip =? "")%string then NaN
        else of_decimal neg (JSString.digits_value ip) (parse_exponent r1)
    | EmptyString =>
        if (ip =? "")%string then NaN
        else of_decimal neg (JSString.digits_value ip) 0
    end.

Definition parseFloat (s : string) : number :=
  let t := JSString.trim_start s in
  match t with
  | String c r =>
      if Ascii.eqb c "+" then parse_unsigned false r
      else if Ascii.eqb c "-" then parse_unsigned true r
      else parse_unsigned false t
  | EmptyString => NaN
  end.

(** *** Number.prototype.toString (radix 10)

    For a finite [x > 0], integers [n], [k] and [s] are chosen with
    [10^(k-1) <= s < 10^k], [s * 10^(n-k)] rounding to [x], and [k] as
    small as possible; among the values of [s] that fit, the one
    nearest to [x] is taken (the even one when two are as near). *)

Definition num_digits (n : Z) : Z := Z.of_nat (String.length (JSString.of_Z n)).

(** Numerator and denominator of [(N / Dn) / 10^j]. *)
Definition scale (N Dn j : Z) : Z * Z :=
  if 0 <=? j then (N, Dn * 10 ^ j) else (N * 10 ^ (- j), Dn).

(** The [n] with [10^(n-1) <= N / Dn < 10^n]. *)
Definition decimal_exponent (N Dn : Z) : Z :=
  let a := num_digits N in
  let b := num_digits Dn in
  let '(u, v) := scale N Dn (a - b) in
  if v <=? u then a - b + 1 else a - b.

(** The best [s] of [k] digits for [x = N / Dn], if one rounds to [x]. *)
Definition candidate (x : number) (N Dn n k : Z) : option Z :=
  let j := n - k in
  let '(u, v) := scale N Dn j in
  let lo := u / v in
  let r := u mod v in
  let hi := lo + 1 in
  let lo_ok := strict_eq (of_decimal false lo j) x in
  let hi_ok := strict_eq (of_decimal false hi j) x in
  if lo_ok && hi_ok then
    Some match 2 * r ?= v with
         | Lt => lo
         | Gt => hi
         | Eq => if Z.even lo then lo else hi
         end
  else if lo_ok then Some lo
  else if hi_ok then Some hi
  else None.

(** The first [k], counting up, that has a candidate; the result is [s]
    and the exponent [n - k] of its last digit. *)
Fixpoint shortest (fuel : nat) (x : number) (N Dn n k : Z) : Z * Z :=
  match fuel with
  | O => let '(u, v) := scale N Dn (n - k) in (u / v, n - k)
  | S f =>
      match candidate x N Dn n k with
      | Some s => (s, n - k)
      | None => shortest f x N Dn n (k + 1)
      end
  end.

Definition toString_pos (m : positive) (e : Z) : string :=
  let x := S754_finite false m e in
  let N := if 0 <=? e then Zpos m * 2 ^ e else Zpos m in
  let Dn := if 0 <=? e then 1 else 2 ^ (- e) in
  let '(s, j) := shortest 17 x N Dn (decimal_exponent N Dn) 1 in
  let all := JSString.of_Z s in
  let n := Z.of_nat (String.length all) + j in
  let ds := JSString.strip_trailing_zeros all in
  let k := Z.of_nat (String.length ds) in
  if (k <=? n) && (n <=? 21) then
    ds ++ JSString.repeat0 (Z.to_nat (n - k))
  else if (0 <? n) && (n <=? 21) then
    substring 0 (Z.to_nat n) ds ++ "." ++ substring (Z.to_nat n) (Z.to_nat (k - n)) ds
  else if (-6 <? n) && (n <=? 0) then
    "0." ++ JSString.repeat0 (Z.to_nat (- n)) ++ ds
  else
    let sign := if n - 1 <? 0 then "-" else "+" in
    let expo := JSString.of_Z (Z.abs (n - 1)) in
    if k =? 1 then ds ++ "e" ++ sign ++ expo
    else substring 0 1 ds ++ "." ++ substring 1 (Z.to_nat (k - 1)) ds
           ++ "e" ++ sign ++ expo.

Definition toString (x : number) : string :=
  match x with
  | S754_nan => "NaN"
  | S754_zero _ => "0"
  | S754_infinity s => if s then "-Infinity" else "Infinity"
  | S754_finite s m e => (if s then "-" else "") ++ toString_pos m e
  end.

End JSNumber.

(** ** The calculator state and its updaters *)

Import JSNumber.

Record CalculatorState : Type := {
  display : string;
  previousValue : option number;
  operation : option string;
  waitingForNewValue : bool;
  lastOperation : option string;
  lastOperand : option number
}.

(** The operator symbols: ['+'], ['-'], U+00D7 and U+00F7. *)
Definition op_plus : string := "+".
Definition op_minus : string := "-".
Definition op_times : string := String (ascii_of_nat 215) EmptyString.
Definition op_divide : string := String (ascii_of_nat 247) EmptyString.

(** The argument of [useState]. *)
Definition initialState : CalculatorState :=
  {| display := "0";
     previousValue := None;
     operation := None;
     waitingForNewValue := false;
     lastOperation := None;
     lastOperand := None |}.

(** Truthiness of a [string | null]. *)
Definition truthy_op (o : option string) : bool :=
  match o with
  | Some s => JSString.truthy s
  | None => false
  end.

(** [o === lit] for a [string | null] and a string literal, as a [case]
    label compares them. *)
Definition case_eq_op (o : option string) (lit : string) : bool :=
  match o with
  | Some s => (s =? lit)%string
  | None => false
  end.

(** What a [switch] leaves behind: a value for [result], or an early
    [return]. *)
Variant switched : Type :=
  | Result (result : number)
  | Return (s : CalculatorState).

Definition inputNumber (num : string) (prevState : CalculatorState) : CalculatorState :=
  if waitingForNewValue prevState then
    {| display := num;
       previousValue := previousValue prevState;
       operation := operation prevState;
       waitingForNewValue := false;
       lastOperation := lastOperation prevState;
       lastOperand := lastOperand prevState |}
  else if (display prevState =? "0")%string || (display prevState =? "Error")%string then
    {| display := num;
       previousValue := previousValue prevState;
       operation := operation prevState;
       waitingForNewValue := waitingForNewValue prevState;
       lastOperation := lastOperation prevState;
       lastOperand := lastOperand prevState |}
  else
    {| display := display prevState ++ num;
       previousValue := previousValue prevState;
       operation := operation prevState;
       waitingForNewValue := waitingForNewValue prevState;
       lastOperation := lastOperation prevState;
       lastOperand := lastOperand prevState |}.

Definition inputDecimal (prevState : CalculatorState) : CalculatorState :=
  if waitingForNewValue prevState then
    {| display := "0.";
       previousValue := previousValue prevState;
       operation := operation prevState;
       waitingForNewValue := false;
       lastOperation := lastOperation prevState;
       lastOperand := lastOperand prevState |}
  else if JSString.indexOf (display prevState) "." =? -1 then
    {| display := display prevState ++ ".";
       previousValue := previousValue prevState;
       operation := operation prevState;
       waitingForNewValue := waitingForNewValue prevState;
       lastOperation := lastOperation prevState;
       lastOperand := lastOperand prevState |}
  else prevState.

Definition clear (_ : CalculatorState) : CalculatorState :=
  {| display := "0";
     previousValue := None;
     operation := None;
     waitingForNewValue := false;
     lastOperation := None;
     lastOperand := None |}.

Definition performOperation (nextOperation : string) (prevState : CalculatorState)
  : CalculatorState :=
  let inputValue := parseFloat (display prevState) in
  match previousValue prevState with
  | None =>
      {| display := display prevState;
         previousValue := Some inputValue;
         operation := Some nextOperation;
         waitingForNewValue := true;
         lastOperation := lastOperation prevState;
         lastOperand := lastOperand prevState |}
  | Some previous =>
      if truthy_op (operation prevState) && waitingForNewValue prevState then
        {| display := display prevState;
           previousValue := previousValue prevState;
           operation := Some nextOperation;
           waitingForNewValue := waitingForNewValue prevState;
           lastOperation := lastOperation prevState;
           lastOperand := lastOperand prevState |}
      else
        let currentValue := or_else previous zero in
        let sw :=
          if case_eq_op (operation prevState) op_plus then
            Result (add currentValue inputValue)
          else if case_eq_op (operation prevState) op_minus then
            Result (sub currentValue inputValue)
          else if case_eq_op (operation prevState) op_times then
            Result (mul currentValue inputValue)
          else if case_eq_op (operation prevState) op_divide then
            if strict_eq inputValue zero then
              Return {| display := "Error";
                        previousValue := None;
                        operation := None;
                        waitingForNewValue := true;
                        lastOperation := lastOperation prevState;
                        lastOperand := lastOperand prevState |}
            else Result (div currentValue inputValue)
          else Return prevState in
        match sw with
        | Return s => s
        | Result result =>
            {| display := toString result;
               previousValue := Some result;
               operation := Some nextOperation;
               waitingForNewValue := true;
               lastOperation := operation prevState;
               lastOperand := Some inputValue |}
        end
  end.

Definition calculate (prevState : CalculatorState) : CalculatorState :=
  let inputValue := parseFloat (display prevState) in
  match previousValue prevState, operation prevState with
  | Some previous, Some _ =>
      let currentValue := previous in
      let sw :=
        if case_eq_op (operation prevState) op_plus then
          Result (add currentValue inputValue)
        else if case_eq_op (operation prevState) op_minus then
          Result (sub currentValue inputValue)
        else if case_eq_op (operation prevState) op_times then
          Result (mul currentValue inputValue)
        else if case_eq_op (operation prevState) op_divide then
          if strict_eq inputValue zero then
            Return {| display := "Error";
                      previousValue := None;
                      operation := None;
                      waitingForNewValue := true;
                      lastOperation := lastOperation prevState;
                      lastOperand := lastOperand prevState |}
          else Result (div currentValue inputValue)
        else Return prevState in
      match sw with
      | Return s => s
      | Result result =>
          {| display := toString result;
             previousValue := None;
             operation := None;
             waitingForNewValue := true;
             lastOperation := operation prevState;
             lastOperand := Some inputValue |}
      end
  | _, _ =>
      (* no operation is pending: repeat the last operation *)
      if truthy_op (lastOperation prevState) then
        match lastOperand prevState with
        | Some operand =>
            let currentValue := inputValue in
            let sw :=
              if case_eq_op (lastOperation prevState) op_plus then
                Result (add currentValue operand)
              else if case_eq_op (lastOperation prevState) op_minus then
                Result (sub currentValue operand)
              else if case_eq_op (lastOperation prevState) op_times then
                Result (mul currentValue operand)
              else if case_eq_op (lastOperation prevState) op_divide then
                if strict_eq operand zero then
                  Return {| display := "Error";
                            previousValue := previousValue prevState;
                            operation := operation prevState;
                            waitingForNewValue := true;
                            lastOperation := lastOperation prevState;
                            lastOperand := lastOperand prevState |}
                else Result (div currentValue operand)
              else Return prevState in
            match sw with
            | Return s => s
            | Result result =>
                {| display := toString result;
                   previousValue := previousValue prevState;
                   operation := operation prevState;
                   waitingForNewValue := true;
                   lastOperation := lastOperation prevState;
                   lastOperand := lastOperand prevState |}
            end
        | None => prevState
        end
      else prevState
  end.

(** The updater of the [Backspace] key in [handleKeyPress]. *)
Definition backspaceKey (prevState : CalculatorState) : CalculatorState :=
  if (1 <? Z.of_nat (String.length (display prevState)))
     && negb (display prevState =? "Error")%string then
    {| display := JSString.slice (display prevState) 0 (-1);
       previousValue := previousValue prevState;
       operation := operation prevState;
       waitingForNewValue := waitingForNewValue prevState;
       lastOperation := lastOperation prevState;
       lastOperand := lastOperand prevState |}
  else
    {| display := "0";
       previousValue := previousValue prevState;
       operation := operation prevState;
       waitingForNewValue := waitingForNewValue prevState;
       lastOperation := lastOperation prevState;
       lastOperand := lastOperand prevState |}.

(** The updater of the on-screen delete button. *)
Definition backspaceButton (prev : CalculatorState) : CalculatorState :=
  {| display := JSString.or_else (JSString.slice (display prev) 0 (-1)) "0";
     previousValue := previousValue prev;
     operation := operation prev;
     waitingForNewValue := waitingForNewValue prev;
     lastOperation := lastOperation prev;
     lastOperand := lastOperand prev |}.

(** [handleKeyPress]: the dispatch on [event.key]. *)
Definition handleKeyPress (key : string) (s : CalculatorState) : CalculatorState :=
  if JSString.ge key "0" && JSString.le key "9" then inputNumber key s
  else if (key =? ".")%string then inputDecimal s
  else if (key =? "+")%string then performOperation op_plus s
  else if (key =? "-")%string then performOperation op_minus s
  else if (key =? "*")%string then performOperation op_times s
  else if (key =? "/")%string then performOperation op_divide s
  else if (key =? "Enter")%string || (key =? "=")%string then calculate s
  else if (key =? "Escape")%string || (key =? "c")%string || (key =? "C")%string
  then clear s
  else if (key =? "Backspace")%string then backspaceKey s
  else s.

(** ** The display formatter

    [Number.prototype.toExponential] and [toLocaleString] are taken as
    parameters: the properties below concern the branches that do not
    reach them. *)

Section Formatter.

Variable toExponential : number -> Z -> string.
Variable toLocaleString_enUS : number -> Z -> string.

Definition formatDisplay (value : string) : string :=
  if (value =? "Error")%string then value
  else
    let num := parseFloat value in
    if isNaN num then value
    else if gt (abs num) (of_Z 999999999999) then toExponential num 6
    else if ge (abs num) (of_Z 1000) then toLocaleString_enUS num 8
    else value.

End Formatter.

(** ** Input events

    The events of the input adapters: the digit, decimal point, operator
    and equals actions, the clear action, the [Backspace] key and the
    on-screen delete button. *)

Variant digit : Type := D0 | D1 | D2 | D3 | D4 | D5 | D6 | D7 | D8 | D9.

Definition digit_key (d : digit) : string :=
  match d with
  | D0 => "0" | D1 => "1" | D2 => "2" | D3 => "3" | D4 => "4"
  | D5 => "5" | D6 => "6" | D7 => "7" | D8 => "8" | D9 => "9"
  end.

Variant operator : Type := Plus | Minus | Times | Divide.

Definition symbol (o : operator) : string :=
  match o with
  | Plus => op_plus
  | Minus => op_minus
  | Times => op_times
  | Divide => op_divide
  end.

(** The strings [performOperation] is called with. *)
Definition is_operator (o : string) : bool :=
  (o =? op_plus)%string || (o =? op_minus)%string
  || (o =? op_times)%string || (o =? op_divide)%string.

Variant event : Type :=
  | Digit (d : digit)
  | Decimal
  | Operator (o : operator)
  | Equals
  | Clear
  | Backspace
  | DeleteButton.

Definition step (s : CalculatorState) (e : event) : CalculatorState :=
  match e with
  | Digit d => inputNumber (digit_key d) s
  | Decimal => inputDecimal s
  | Operator o => performOperation (symbol o) s
  | Equals => calculate s
  | Clear => clear s
  | Backspace => backspaceKey s
  | DeleteButton => backspaceButton s
  end.

Definition run (evs : list event) (s : CalculatorState) : CalculatorState :=
  fold_left step evs s.

Inductive reachable : CalculatorState -> Prop :=
  | reachable_init : reachable initialState
  | reachable_step s e : reachable s -> reachable (step s e).

(** The binary operation table of the three [switch] statements: the
    value of [l o r], or [None] where the code returns early (a division
    by zero, a symbol that is no operator). *)
Definition compute (o : string) (l r : number) : option number :=
  if (o =? op_plus)%string then Some (add l r)
  else if (o =? op_minus)%string then Some (sub l r)
  else if (o =? op_times)%string then Some (mul l r)
  else if (o =? op_divide)%string then
    if strict_eq r zero then None else Some (div l r)
  else None.

(** A number that shows as infinite or as not-a-number. *)
Definition is_infinite_or_nan (v : number) : bool :=
  match v with
  | S754_infinity _ | S754_nan => true
  | _ => false
  end.

(** The key that [handleKeyPress] maps to each event; the on-screen
    delete button has none. *)
Definition event_key (e : event) : option string :=
  match e with
  | Digit d => Some (digit_key d)
  | Decimal => Some "."
  | Operator Plus => Some "+"
  | Operator Minus => Some "-"
  | Operator Times => Some "*"
  | Operator Divide => Some "/"
  | Equals => Some "Enter"
  | Clear => Some "Escape"
  | Backspace => Some "Backspace"
  | DeleteButton => None
  end.

(** The events of digit and decimal-point entry. *)
Definition is_entry (e : event) : bool :=
  match e with
  | Digit _ | Decimal => true
  | _ => false
  end.

(** ** Vocabulary of the properties *)

(** What the display shows for the outcome of an operation: the number,
    or ["Error"] for a division by zero. *)
Definition show (r : option number) : string :=
  match r with
  | Some v => toString v
  | None => "Error"
  end.

(** The state that the division-by-zero branches of [performOperation]
    and [calculate] return from [s]. *)
Definition divisionError (s : CalculatorState) : CalculatorState :=
  {| display := "Error";
     previousValue := None;
     operation := None;
     waitingForNewValue := true;
     lastOperation := lastOperation s;
     lastOperand := lastOperand s |}.

(** [s'] is the error state that follows [s]: the display is exactly
    ["Error"], the staged operand and the pending operation are cleared,
    the next digit starts a new number, and the last operation and its
    operand are those of [s]. *)
Definition is_division_error (s s' : CalculatorState) : Prop :=
  display s' = "Error"
  /\ previousValue s' = None
  /\ operation s' = None
  /\ waitingForNewValue s' = true
  /\ lastOperation s' = lastOperation s
  /\ lastOperand s' = lastOperand s.

(** The guard of the division-by-zero branch of [performOperation]. *)
Definition division_by_zero_pending (s : CalculatorState) : bool :=
  match previousValue s with
  | Some _ =>
      negb (waitingForNewValue s)
      && case_eq_op (operation s) op_divide
      && strict_eq (parseFloat (display s)) zero
  | None => false
  end.

(** The guard of the branch of [calculate] that answers ["Error"] to a
    repeated division by zero. *)
Definition repeat_division_by_zero (s : CalculatorState) : bool :=
  match previousValue s, operation s with
  | Some _, Some _ => false
  | _, _ =>
      truthy_op (lastOperation s)
      && case_eq_op (lastOperation s) op_divide
      && match lastOperand s with
         | Some operand => strict_eq operand zero
         | None => false
         end
  end.

(** The result that event [e] commits in state [s] by resolving the
    pending operation, if it does: an operator pressed after a new
    operand, or equals, when the pending operation has a result. *)
Definition pending_result (s : CalculatorState) (e : event) : option number :=
  match e with
  | Operator _ =>
      match previousValue s, operation s with
      | Some p, Some o =>
          if truthy_op (operation s) && waitingForNewValue s then None
          else compute o (or_else p zero) (parseFloat (display s))
      | _, _ => None
      end
  | Equals =>
      match previousValue s, operation s with
      | Some p, Some o => compute o p (parseFloat (display s))
      | _, _ => None
      end
  | _ => None
  end.

(** [s'] has the last operation and the last operand of [s]. *)
Definition same_last (s s' : CalculatorState) : Prop :=
  lastOperation s' = lastOperation s /\ lastOperand s' = lastOperand s.

(** A staged operand and a pending operation come together, and the
    pending operation is one of the four operators. *)
Definition well_formed (s : CalculatorState) : Prop :=
  match previousValue s, operation s with
  | None, None => True
  | Some _, Some o => is_operator o = true
  | _, _ => False
  end.

(** The invariant of the last operation: absent together with its
    operand, or an operator with an operand that is not zero when the
    operator is the division. *)
Definition last_ok (s : CalculatorState) : Prop :=
  match lastOperation s, lastOperand s with
  | None, None => True
  | Some o, Some v =>
      is_operator o = true /\ (o = op_divide -> strict_eq v zero = false)
  | _, _ => False
  end.

(** While numbers are typed, [waitingForNewValue] stays unset and the
    display holds at most one decimal point. *)
Definition typing (s : CalculatorState) : Prop :=
  waitingForNewValue s = false /\ (JSString.count "." (display s) <= 1)%nat.

(** The contract of a backspace updater [bs]: ["0"], ["Error"] and
    one-character displays give ["0"]; any other display that has a
    last character loses exactly that one; the display is never left
    empty. *)
Definition backspace_contract_at (bs : CalculatorState -> CalculatorState)
    (s : CalculatorState) : Prop :=
  (display s = "0" \/ display s = "Error" \/ String.length (display s) = 1%nat ->
   display (bs s) = "0")
  /\ (display s <> "0" -> display s <> "Error" ->
      (1 < String.length (display s))%nat ->
      exists c, display s = display (bs s) ++ String c "")
  /\ display (bs s) <> "".

(** After [s1], equals computes with the displayed value on the right:
    its display is the outcome of [l o d] for an operator [o], a left
    operand [l] and the value [d] that [s1] displays. *)
Definition right_operand_is_display (s1 : CalculatorState) : Prop :=
  exists (o : string) (l : number),
    is_operator o = true
    /\ display (calculate s1) = show (compute o l (parseFloat (display s1))).

(** ** States used as examples *)

(** The state after the keys [5], [÷], [0], [=]. *)
Definition errorState : CalculatorState :=
  run [Digit D5; Operator Divide; Digit D0; Equals] initialState.

(** The state after the keys [5], [÷], [0]. *)
Definition divideByZeroState : CalculatorState :=
  run [Digit D5; Operator Divide; Digit D0] initialState.

(** The state after the keys [5], [+], [3], [=]. *)
Definition eightState : CalculatorState :=
  run [Digit D5; Operator Plus; Digit D3; Equals] initialState.

(** The state after the keys [3], [+], [4]. *)
Definition threePlusFourState : CalculatorState :=
  run [Digit D3; Operator Plus; Digit D4] initialState.

(** The state after the keys [5], [+]. *)
Definition fivePlusState : CalculatorState :=
  run [Digit D5; Operator Plus] initialState.

(** The state after the keys [1], [.], [2]. *)
Definition onePointTwoState : CalculatorState :=
  run [Digit D1; Decimal; Digit D2] initialState.

(** The state after the keys [8], [÷], [2], [=]. *)
Definition fourState : CalculatorState :=
  run [Digit D8; Operator Divide; Digit D2; Equals] initialState.

(** ** The rendered lines

    Under [formatDisplay(state.display)] the component renders the
    staged operand and the pending operator when
    [state.operation && state.previousValue !== null]. *)

Section Render.

Variable toExponential : number -> Z -> string.
Variable toLocaleString_enUS : number -> Z -> string.

(** The text of the secondary line, or [None] when nothing is rendered
    for it. *)
Definition secondaryLine (state : CalculatorState) : option string :=
  match operation state with
  | Some op =>
      if JSString.truthy op then
        match previousValue state with
        | Some previous =>
            Some (formatDisplay toExponential toLocaleString_enUS (toString previous)
                  ++ " " ++ op)
        | None => None
        end
      else None
  | None => None
  end.

End Render.

(** ** Vocabulary of further properties *)

(** [o] matches one of the four [case] labels. *)
Definition matches_case (o : option string) : bool :=
  case_eq_op o op_plus || case_eq_op o op_minus
  || case_eq_op o op_times || case_eq_op o op_divide.

(** The guards of the [default] branches of the three [switch]
    statements: the one of [performOperation], and the two of
    [calculate] (pending operation, repeat). *)
Definition default_branch (s : CalculatorState) (e : event) : bool :=
  match e with
  | Operator _ =>
      match previousValue s with
      | Some _ =>
          negb (truthy_op (operation s) && waitingForNewValue s)
          && negb (matches_case (operation s))
      | None => false
      end
  | Equals =>
      match previousValue s, operation s with
      | Some _, Some _ => negb (matches_case (operation s))
      | _, _ =>
          truthy_op (lastOperation s)
          && match lastOperand s with Some _ => true | None => false end
          && negb (matches_case (lastOperation s))
      end
  | _ => false
  end.

(** The value of a digit and of a sequence of digits. *)
Definition digit_Z (d : digit) : Z :=
  match d with
  | D0 => 0 | D1 => 1 | D2 => 2 | D3 => 3 | D4 => 4
  | D5 => 5 | D6 => 6 | D7 => 7 | D8 => 8 | D9 => 9
  end.

Definition digits_Z (ds : list digit) : Z :=
  fold_left (fun acc d => 10 * acc + digit_Z d) ds 0.

(** Every character of [s] is a decimal digit. *)
Fixpoint all_digits (s : string) : bool :=
  match s with
  | EmptyString => true
  | String c rest => JSString.is_digit c && all_digits rest
  end.

(** The keys that [handleKeyPress] gives a meaning to when they are not
    read as digits. *)
Definition bound_keys : list string :=
  ["."; "+"; "-"; "*"; "/"; "Enter"; "="; "Escape"; "c"; "C"; "Backspace"].

(** The state after the keys [5], [÷], [0], [=], [+], [3]: the operator
    was pressed on the ["Error"] display. *)
Definition errorPlusThreeState : CalculatorState :=
  run [Digit D5; Operator Divide; Digit D0; Equals; Operator Plus; Digit D3]
    initialState.

(** A number is being typed: [waitingForNewValue] is unset and the
    display is a non-empty string of digits of value [v]. *)
Definition entering (s : CalculatorState) (v : Z) : Prop :=
  waitingForNewValue s = false
  /\ all_digits (display s) = true
  /\ display s <> ""
  /\ JSString.digits_value (display s) = v.

(** [s] starts with the letter [E]. *)
Definition starts_with_E (s : string) : bool :=
  match s with
  | String c _ => Ascii.eqb c "E"
  | EmptyString => false
  end.

(** The invariant of the sentinel: a display that starts with [E] is a
    prefix of ["Error"], and [waitingForNewValue] is set. *)
Definition sentinel_ok (s : CalculatorState) : Prop :=
  starts_with_E (display s) = true ->
  waitingForNewValue s = true /\ String.prefix (display s) "Error" = true.

(** The guard of the division-by-zero branch of [calculate] for a
    pending operation. *)
Definition equals_division_by_zero (s : CalculatorState) : bool :=
  match previousValue s, operation s with
  | Some _, Some _ =>
      case_eq_op (operation s) op_divide
      && strict_eq (parseFloat (display s)) zero
  | _, _ => false
  end.

(** The first character of a key is a decimal digit. *)
Definition first_is_digit (key : string) : bool :=
  match key with
  | String c _ => JSString.is_digit c
  | EmptyString => false
  end.

(** [x >= 10^j] for [x = N / Dn], on the numerator and the denominator
    that [scale] gives. *)
Definition at_least_pow10 (N Dn j : Z) : Prop :=
  snd (scale N Dn j) <= fst (scale N Dn j).

(** A number with a fraction is being typed: the display is the digits
    [ip], a decimal point and the digits [fp]. *)
Definition entering_fraction (s : CalculatorState) (ip fp : string) : Prop :=
  waitingForNewValue s = false
  /\ all_digits ip = true
  /\ ip <> ""
  /\ all_digits fp = true
  /\ display s = ip ++ "." ++ fp.

(** Chaining at state [s] for the operator [next], as the specification
    words it: an operand [p] is staged with an operation [o] pending, the
    pending operation [p o d] on the displayed value [d] has a result,
    and [performOperation] shows and stages that result and stages
    [next]. *)
Definition stages_pending_result (s : CalculatorState) (next : string) : Prop :=
  exists (p : number) (o : string) (r : number),
    previousValue s = Some p
    /\ operation s = Some o
    /\ compute o p (parseFloat (display s)) = Some r
    /\ display (performOperation next s) = toString r
    /\ previousValue (performOperation next s) = Some r
    /\ operation (performOperation next s) = Some next.

(** * Properties *)

(** ** Numbers: sample values of the model *)

Example parseFloat_samples :
  map (fun s => toString (parseFloat s))
    ["8"; "12.50"; "0."; ".5"; "-0"; "1e21"; "1e-7"; "0.000001"; "  42px";
     "Error"; "."; "Infinity"; "9007199254740993"; "1e400"]
  = ["8"; "12.5"; "0"; "0.5"; "0"; "1e+21"; "1e-7"; "0.000001"; "42";
     "NaN"; "NaN"; "Infinity"; "9007199254740992"; "Infinity"].
Proof. vm_compute. reflexivity. Qed.

Example arithmetic_samples :
  toString (add (parseFloat "0.1") (parseFloat "0.2")) = "0.30000000000000004"
  /\ toString (div (of_Z 1) (of_Z 3)) = "0.3333333333333333"
  /\ toString (div (of_Z 10) (of_Z 4)) = "2.5"
  /\ toString (sub (of_Z 3) (of_Z 5)) = "-2"
  /\ toString (div (of_Z 1) zero) = "Infinity"
  /\ toString (div zero zero) = "NaN"
  /\ toString (mul (of_Z 123456789) (of_Z 987654321)) = "121932631112635260".
Proof. vm_compute. repeat split. Qed.

(** The keys [5 ÷ 0 =] show ["Error"]; a digit then starts a new number. *)
Example error_then_digit :
  display (run [Digit D5; Operator Divide; Digit D0; Equals] initialState)
  = "Error"
  /\ display (run [Digit D5; Operator Divide; Digit D0; Equals; Digit D7]
                initialState) = "7".
Proof. vm_compute. split; reflexivity. Qed.

(** ** Strings *)

Section StringFacts.

Lemma length_append (a b : string) :
  String.length (a ++ b) = (String.length a + String.length b)%nat.
Proof. induction a as [|c a IH]; simpl; [reflexivity | now rewrite IH]. Qed.

Lemma substring_prefix (a b : string) :
  substring 0 (String.length a) (a ++ b) = a.
Proof.
  induction a as [|c a IH]; simpl.
  - now destruct b.
  - now rewrite IH.
Qed.

(** Every string that is not empty ends with a last character. *)
Lemma string_snoc (s : string) :
  s <> "" -> exists front c, s = front ++ String c "".
Proof.
  induction s as [|a s IH]; intros Hne; [congruence|].
  destruct s as [|b s].
  - now exists "", a.
  - destruct IH as (front & c & E); [discriminate|].
    exists (String a front), c. simpl. now rewrite <- E.
Qed.

(** [slice(0, -1)] drops the last character. *)
Lemma slice_snoc (front : string) (c : ascii) :
  JSString.slice (front ++ String c "") 0 (-1) = front.
Proof.
  unfold JSString.slice. rewrite length_append. simpl String.length.
  replace (0 <? 0) with false by reflexivity.
  replace (-1 <? 0) with true by reflexivity.
  replace (Z.to_nat (Z.min 0 _)) with 0%nat by lia.
  match goal with |- substring 0 ?n _ = _ =>
    replace n with (String.length front) by lia end.
  apply substring_prefix.
Qed.

Lemma slice_empty : JSString.slice "" 0 (-1) = "".
Proof. reflexivity. Qed.

Lemma length_one (s : string) :
  String.length s = 1%nat -> exists c, s = String c "".
Proof.
  destruct s as [|c [|d s]]; simpl; intros H; try discriminate.
  now exists c.
Qed.

Lemma count_append (c : ascii) (a b : string) :
  JSString.count c (a ++ b) = (JSString.count c a + JSString.count c b)%nat.
Proof. induction a as [|x a IH]; simpl; [reflexivity | rewrite IH; lia]. Qed.

Lemma indexOf_from_nonneg (s : string) (c : ascii) (pos : Z) :
  0 <= pos -> JSString.indexOf_from s c pos = -1 \/ 0 <= JSString.indexOf_from s c pos.
Proof.
  revert pos. induction s as [|a s IH]; simpl; intros pos Hpos; [now left|].
  destruct (Ascii.eqb a c); [now right|]. apply IH. lia.
Qed.

Lemma indexOf_from_absent (s : string) (c : ascii) (pos : Z) :
  0 <= pos -> (JSString.indexOf_from s c pos = -1 <-> JSString.count c s = 0%nat).
Proof.
  revert pos. induction s as [|a s IH]; simpl; intros pos Hpos; [tauto|].
  destruct (Ascii.eqb a c); simpl.
  - split; [lia | discriminate].
  - apply IH. lia.
Qed.

(** [indexOf] answers [-1] exactly when the character does not occur. *)
Lemma indexOf_absent (s : string) (c : ascii) :
  JSString.indexOf s c = -1 <-> JSString.count c s = 0%nat.
Proof. apply indexOf_from_absent. lia. Qed.

End StringFacts.

(** ** Backspace *)

Section Backspace.

(** The keyboard handler keeps the contract in every state. *)
Lemma backspaceKey_contract (s : CalculatorState) :
  backspace_contract_at backspaceKey s.
Proof.
  unfold backspace_contract_at, backspaceKey.
  destruct (Nat.lt_ge_cases 1 (String.length (display s))) as [Hlen|Hlen].
  - replace (1 <? Z.of_nat (String.length (display s))) with true
      by (symmetry; apply Z.ltb_lt; lia).
    destruct (String.eqb_spec (display s) "Error") as [E|NE]; simpl.
    + repeat split; intros; try congruence; discriminate.
    + destruct (string_snoc (display s)) as (front & c & E).
      { intros E0. rewrite E0 in Hlen. simpl in Hlen. lia. }
      rewrite E, slice_snoc. repeat split.
      * intros [H0|[HE|H1]].
        -- rewrite E, H0 in Hlen. simpl in Hlen. lia.
        -- congruence.
        -- rewrite E in Hlen. lia.
      * intros _ _ _. now exists c.
      * intros ->. rewrite E in Hlen. simpl in Hlen. lia.
  - replace (1 <? Z.of_nat (String.length (display s))) with false
      by (symmetry; apply Z.ltb_ge; lia).
    simpl. repeat split; intros; try discriminate; lia.
Qed.

(** The on-screen button keeps it in every state but those that
    display ["Error"]. *)
Lemma backspaceButton_contract (s : CalculatorState) :
  display s <> "Error" -> backspace_contract_at backspaceButton s.
Proof.
  intros NE. unfold backspace_contract_at, backspaceButton. simpl.
  destruct (String.eqb_spec (display s) "") as [E0|N0].
  - rewrite E0. simpl. repeat split; intros; simpl in *; try discriminate; lia.
  - destruct (string_snoc _ N0) as (front & c & E). rewrite E in *.
    rewrite slice_snoc. destruct front as [|f front]; simpl.
    + repeat split; intros; simpl in *; try discriminate; lia.
    + unfold JSString.or_else. simpl. repeat split.
      * intros [H0|[HE|H1]]; exfalso.
        -- destruct front; discriminate.
        -- exact (NE HE).
        -- rewrite length_append in H1. simpl in H1. lia.
      * intros _ _ _. now exists c.
      * discriminate.
Qed.

End Backspace.

(** ** Reachable states *)

Lemma reachable_run (evs : list event) (s : CalculatorState) :
  reachable s -> reachable (run evs s).
Proof.
  revert s. induction evs as [|e evs IH]; intros s Hs; [exact Hs|].
  apply IH. now constructor.
Qed.

Lemma reachable_iff_run (s : CalculatorState) :
  reachable s <-> exists evs, s = run evs initialState.
Proof.
  split.
  - induction 1 as [|s e _ (evs & ->)].
    + now exists [].
    + exists (evs ++ [e])%list. unfold run. now rewrite fold_left_app.
  - intros (evs & ->). apply reachable_run. constructor.
Qed.

(** C2 (the code departs from the claim): backspace on ["0"], on
    ["Error"] or on a one-character display must give ["0"] on every
    path.  In the state reached by [5 ÷ 0 =] the display is ["Error"];
    the keyboard handler answers ["0"], the on-screen button answers
    ["Erro"]. *)
Theorem backspaceButton_on_Error :
  reachable errorState
  /\ display errorState = "Error"
  /\ display (backspaceKey errorState) = "0"
  /\ display (backspaceButton errorState) = "Erro"
  /\ ~ backspace_contract_at backspaceButton errorState.
Proof.
  split; [|split; [|split; [|split]]]; try (vm_compute; reflexivity).
  - apply reachable_run. constructor.
  - intros (H & _). specialize (H (or_intror (or_introl eq_refl))).
    vm_compute in H. discriminate.
Qed.

(** ** The keyboard *)

(** [handleKeyPress] on the key of an event is the step of that event. *)
Lemma handleKeyPress_step (e : event) (key : string) (s : CalculatorState) :
  event_key e = Some key -> handleKeyPress key s = step s e.
Proof.
  destruct e as [d| |o| | | |]; try destruct d; try destruct o;
    simpl; intros E; inversion E; reflexivity.
Qed.

(** The other keys of equals and clear. *)
Lemma handleKeyPress_aliases (s : CalculatorState) :
  handleKeyPress "=" s = calculate s
  /\ handleKeyPress "c" s = clear s
  /\ handleKeyPress "C" s = clear s.
Proof. repeat split. Qed.

(** ** The branches of [performOperation] and [calculate] *)

Section Branches.

Variable s : CalculatorState.

Let inputValue : number := parseFloat (display s).

Ltac switch_on o :=
  unfold case_eq_op, compute in *;
  destruct (o =? op_plus)%string; [congruence|];
  destruct (o =? op_minus)%string; [congruence|];
  destruct (o =? op_times)%string; [congruence|];
  destruct (o =? op_divide)%string; [|congruence].

(** Operand staging: no operand was staged before. *)
Lemma performOperation_stage (next : string) :
  previousValue s = None ->
  performOperation next s =
    {| display := display s;
       previousValue := Some inputValue;
       operation := Some next;
       waitingForNewValue := true;
       lastOperation := lastOperation s;
       lastOperand := lastOperand s |}.
Proof. intros H. unfold performOperation. now rewrite H. Qed.

(** Operator substitution: an operator follows an operator. *)
Lemma performOperation_substitute (next : string) (p : number) :
  previousValue s = Some p ->
  truthy_op (operation s) = true ->
  waitingForNewValue s = true ->
  performOperation next s =
    {| display := display s;
       previousValue := Some p;
       operation := Some next;
       waitingForNewValue := true;
       lastOperation := lastOperation s;
       lastOperand := lastOperand s |}.
Proof.
  intros Hp Ho Hw. unfold performOperation. now rewrite Hp, Ho, Hw.
Qed.

(** Chaining: the pending operation has a result. *)
Lemma performOperation_chain (next o : string) (p r : number) :
  previousValue s = Some p ->
  operation s = Some o ->
  waitingForNewValue s = false ->
  compute o (or_else p zero) inputValue = Some r ->
  performOperation next s =
    {| display := toString r;
       previousValue := Some r;
       operation := Some next;
       waitingForNewValue := true;
       lastOperation := Some o;
       lastOperand := Some inputValue |}.
Proof.
  intros Hp Ho Hw Hc. unfold performOperation.
  rewrite Hp, Hw, Bool.andb_false_r, Ho. fold inputValue.
  switch_on o.
  destruct (strict_eq inputValue zero); congruence.
Qed.

(** Division by zero when an operator is pressed. *)
Lemma performOperation_division_by_zero (next : string) (p : number) :
  previousValue s = Some p ->
  operation s = Some op_divide ->
  waitingForNewValue s = false ->
  strict_eq inputValue zero = true ->
  performOperation next s = divisionError s.
Proof.
  intros Hp Ho Hw Hz. unfold performOperation.
  rewrite Hp, Hw, Bool.andb_false_r, Ho. fold inputValue.
  unfold case_eq_op. now rewrite Hz.
Qed.

(** Equals with a pending operation that has a result. *)
Lemma calculate_pending (o : string) (p r : number) :
  previousValue s = Some p ->
  operation s = Some o ->
  compute o p inputValue = Some r ->
  calculate s =
    {| display := toString r;
       previousValue := None;
       operation := None;
       waitingForNewValue := true;
       lastOperation := Some o;
       lastOperand := Some inputValue |}.
Proof.
  intros Hp Ho Hc. unfold calculate. rewrite Hp, Ho. fold inputValue.
  switch_on o.
  destruct (strict_eq inputValue zero); congruence.
Qed.

(** Division by zero at equals. *)
Lemma calculate_division_by_zero (p : number) :
  previousValue s = Some p ->
  operation s = Some op_divide ->
  strict_eq inputValue zero = true ->
  calculate s = divisionError s.
Proof.
  intros Hp Ho Hz. unfold calculate. rewrite Hp, Ho. fold inputValue.
  unfold case_eq_op. now rewrite Hz.
Qed.

(** Equals with nothing pending and a last operation to repeat. *)
Lemma calculate_repeat (o : string) (operand r : number) :
  previousValue s = None \/ operation s = None ->
  lastOperation s = Some o ->
  lastOperand s = Some operand ->
  compute o inputValue operand = Some r ->
  calculate s =
    {| display := toString r;
       previousValue := previousValue s;
       operation := operation s;
       waitingForNewValue := true;
       lastOperation := lastOperation s;
       lastOperand := lastOperand s |}.
Proof.
  intros Hn Ho Hd Hc. unfold calculate. fold inputValue.
  assert (T : truthy_op (Some o) = true).
  { unfold truthy_op, JSString.truthy.
    destruct (String.eqb_spec o ""); [|reflexivity].
    subst o. discriminate. }
  destruct Hn as [Hn|Hn]; rewrite Hn; [|destruct (previousValue s)];
    rewrite Ho, T, Hd; switch_on o;
    destruct (strict_eq operand zero); congruence.
Qed.

(** Equals with nothing pending and nothing to repeat. *)
Lemma calculate_nothing :
  previousValue s = None \/ operation s = None ->
  lastOperation s = None \/ lastOperand s = None ->
  calculate s = s.
Proof.
  intros Hn Hl. unfold calculate.
  destruct Hn as [Hn|Hn]; rewrite Hn; [|destruct (previousValue s)];
    (destruct Hl as [Hl|Hl]; rewrite Hl; [reflexivity|];
     now destruct (truthy_op (lastOperation s))).
Qed.

End Branches.

(** ** Division by zero *)

Lemma divisionError_is_division_error (s : CalculatorState) :
  is_division_error s (divisionError s).
Proof. repeat split. Qed.

Lemma toString_infinite_or_nan (v : number) :
  is_infinite_or_nan v = true ->
  toString v = "Infinity" \/ toString v = "-Infinity" \/ toString v = "NaN".
Proof. destruct v as [| [|] | |]; simpl; intros; try discriminate; tauto. Qed.

(** C1: in every state with a pending division and a newly entered right
    operand that parses to zero, [performOperation] and [calculate] both
    give the error state: display ["Error"], no staged operand, no
    pending operation, [waitingForNewValue] set, last operation and
    operand untouched.  The display they set is not the rendering of an
    infinite or not-a-number value. *)
Theorem division_by_zero_error (s : CalculatorState) (next : string) (p : number) :
  previousValue s = Some p ->
  operation s = Some op_divide ->
  waitingForNewValue s = false ->
  strict_eq (parseFloat (display s)) zero = true ->
  is_division_error s (performOperation next s)
  /\ is_division_error s (calculate s)
  /\ (forall v, is_infinite_or_nan v = true ->
       display (performOperation next s) <> toString v
       /\ display (calculate s) <> toString v).
Proof.
  intros Hp Ho Hw Hz.
  rewrite (performOperation_division_by_zero s next p Hp Ho Hw Hz).
  rewrite (calculate_division_by_zero s p Hp Ho Hz).
  split; [|split]; try apply divisionError_is_division_error.
  intros v Hv. simpl.
  destruct (toString_infinite_or_nan v Hv) as [E|[E|E]]; rewrite E;
    split; discriminate.
Qed.

Lemma division_by_zero_error_witness :
  previousValue divideByZeroState = Some (of_Z 5)
  /\ operation divideByZeroState = Some op_divide
  /\ waitingForNewValue divideByZeroState = false
  /\ strict_eq (parseFloat (display divideByZeroState)) zero = true
  /\ is_division_error divideByZeroState (performOperation op_times divideByZeroState)
  /\ is_division_error divideByZeroState (calculate divideByZeroState).
Proof.
  assert (Hp : previousValue divideByZeroState = Some (of_Z 5)) by reflexivity.
  assert (Ho : operation divideByZeroState = Some op_divide) by reflexivity.
  assert (Hw : waitingForNewValue divideByZeroState = false) by reflexivity.
  assert (Hz : strict_eq (parseFloat (display divideByZeroState)) zero = true)
    by reflexivity.
  pose proof (division_by_zero_error divideByZeroState op_times (of_Z 5)
                Hp Ho Hw Hz) as (H1 & H2 & _).
  repeat split; assumption || apply H1 || apply H2.
Defined.

(** ** Repeat, chaining and operator substitution *)

(** C3: the keys [5 + 3 =] show ["8"] and a further [=] shows ["11"].
    In general, equals with nothing pending applies the last operation
    to the displayed value (left) and the last operand (right), shows the
    result and sets [waitingForNewValue]; nothing else changes. *)
Theorem repeat_last_operation :
  display (run [Digit D5; Operator Plus; Digit D3; Equals] initialState) = "8"
  /\ display (run [Digit D5; Operator Plus; Digit D3; Equals; Equals] initialState)
     = "11"
  /\ forall (s : CalculatorState) (o : string) (operand r : number),
       previousValue s = None \/ operation s = None ->
       lastOperation s = Some o ->
       lastOperand s = Some operand ->
       compute o (parseFloat (display s)) operand = Some r ->
       calculate s =
         {| display := toString r;
            previousValue := previousValue s;
            operation := operation s;
            waitingForNewValue := true;
            lastOperation := Some o;
            lastOperand := Some operand |}.
Proof.
  split; [vm_compute; reflexivity|].
  split; [vm_compute; reflexivity|].
  intros s o operand r Hn Ho Hd Hc.
  rewrite (calculate_repeat s o operand r Hn Ho Hd Hc). now rewrite Ho, Hd.
Qed.

Lemma repeat_last_operation_witness :
  (previousValue eightState = None \/ operation eightState = None)
  /\ lastOperation eightState = Some op_plus
  /\ lastOperand eightState = Some (of_Z 3)
  /\ compute op_plus (parseFloat (display eightState)) (of_Z 3) = Some (of_Z 11)
  /\ display (calculate eightState) = "11"
  /\ waitingForNewValue (calculate eightState) = true.
Proof.
  assert (Hn : previousValue eightState = None \/ operation eightState = None)
    by (left; reflexivity).
  assert (Ho : lastOperation eightState = Some op_plus) by reflexivity.
  assert (Hd : lastOperand eightState = Some (of_Z 3)) by reflexivity.
  assert (Hc : compute op_plus (parseFloat (display eightState)) (of_Z 3)
               = Some (of_Z 11)) by reflexivity.
  pose proof (proj2 (proj2 repeat_last_operation) eightState op_plus (of_Z 3)
                (of_Z 11) Hn Ho Hd Hc) as E.
  repeat split; try assumption; rewrite E; reflexivity.
Defined.

(** C4 (as stated, refuted): an operator pressed while an operation is
    pending and a new operand has been entered does not always compute
    the pending operation and stage its result with the new operator.
    After the keys [5 ÷ 0] the operator [×] takes the division-by-zero
    branch: the display is ["Error"] and no operator is staged.  After
    the keys [5 ÷ 0 = + 3] the staged operand is [NaN] and the operator
    [×] shows ["3"], where the pending operation [NaN + 3] is [NaN]. *)
Lemma chained_operations_counterexample :
  (reachable divideByZeroState
   /\ operation divideByZeroState = Some op_divide
   /\ waitingForNewValue divideByZeroState = false
   /\ display (performOperation op_times divideByZeroState) = "Error"
   /\ operation (performOperation op_times divideByZeroState) = None
   /\ ~ stages_pending_result divideByZeroState op_times)
  /\ (reachable errorPlusThreeState
      /\ previousValue errorPlusThreeState = Some NaN
      /\ operation errorPlusThreeState = Some op_plus
      /\ waitingForNewValue errorPlusThreeState = false
      /\ show (compute op_plus NaN (parseFloat (display errorPlusThreeState)))
         = "NaN"
      /\ display (performOperation op_times errorPlusThreeState) = "3"
      /\ ~ stages_pending_result errorPlusThreeState op_times).
Proof.
  split.
  - split; [apply reachable_run; constructor|].
    repeat (split; [reflexivity|]).
    intros (p & o & r & _ & _ & _ & _ & _ & H). discriminate H.
  - split; [apply reachable_run; constructor|].
    repeat (split; [reflexivity|]).
    intros (p & o & r & Hp & Ho & Hc & Hd & _).
    change (previousValue errorPlusThreeState) with (Some NaN) in Hp.
    change (operation errorPlusThreeState) with (Some op_plus) in Ho.
    injection Hp as <-. injection Ho as <-.
    change (display (performOperation op_times errorPlusThreeState))
      with "3" in Hd.
    unfold compute in Hc. cbn [String.eqb op_plus] in Hc.
    change ("+" =? "+")%string with true in Hc. cbv iota in Hc.
    injection Hc as <-. discriminate Hd.
Qed.

(** C4 (amended): the keys [3 + 4 × 2 =] show ["14"]; pressing [×] after
    [3 + 4] computes [7], shows it and stages it with the new operator.
    In general, when an operation is pending, a new operand has been
    entered, the pending operation has a result (it is no division by
    zero) and the staged operand is one that [previousValue || 0] keeps
    (any but [NaN] and [-0]), an operator computes the pending operation
    on the staged operand and the displayed value, shows and stages its
    result, stages the new operator and records the operation and the
    operand consumed. *)
Theorem chained_operations :
  (let s := run [Digit D3; Operator Plus; Digit D4; Operator Times] initialState in
   display s = "7" /\ previousValue s = Some (of_Z 7)
   /\ operation s = Some op_times /\ waitingForNewValue s = true)
  /\ display (run [Digit D3; Operator Plus; Digit D4; Operator Times; Digit D2; Equals]
                initialState) = "14"
  /\ (forall (s : CalculatorState) (next o : string) (p r : number),
        previousValue s = Some p ->
        operation s = Some o ->
        waitingForNewValue s = false ->
        or_else p zero = p ->
        compute o p (parseFloat (display s)) = Some r ->
        performOperation next s =
          {| display := toString r;
             previousValue := Some r;
             operation := Some next;
             waitingForNewValue := true;
             lastOperation := Some o;
             lastOperand := Some (parseFloat (display s)) |})
  /\ (forall p : number,
        isNaN p = false -> p <> S754_zero true -> or_else p zero = p).
Proof.
  split; [vm_compute; repeat split|].
  split; [vm_compute; reflexivity|].
  split.
  - intros s next o p r Hp Ho Hw Hk Hc. rewrite <- Hk in Hc.
    exact (performOperation_chain s next o p r Hp Ho Hw Hc).
  - intros p Hn Hz. destruct p as [[|]| | |]; try reflexivity;
      [now elim Hz | discriminate Hn].
Qed.

Lemma chained_operations_witness :
  previousValue threePlusFourState = Some (of_Z 3)
  /\ operation threePlusFourState = Some op_plus
  /\ waitingForNewValue threePlusFourState = false
  /\ or_else (of_Z 3) zero = of_Z 3
  /\ compute op_plus (of_Z 3) (parseFloat (display threePlusFourState))
     = Some (of_Z 7)
  /\ display (performOperation op_times threePlusFourState) = "7"
  /\ previousValue (performOperation op_times threePlusFourState) = Some (of_Z 7)
  /\ operation (performOperation op_times threePlusFourState) = Some op_times.
Proof.
  assert (Hp : previousValue threePlusFourState = Some (of_Z 3)) by reflexivity.
  assert (Ho : operation threePlusFourState = Some op_plus) by reflexivity.
  assert (Hw : waitingForNewValue threePlusFourState = false) by reflexivity.
  assert (Hk : or_else (of_Z 3) zero = of_Z 3) by reflexivity.
  assert (Hc : compute op_plus (of_Z 3) (parseFloat (display threePlusFourState))
               = Some (of_Z 7)) by reflexivity.
  pose proof (proj1 (proj2 (proj2 chained_operations)) threePlusFourState
                op_times op_plus (of_Z 3) (of_Z 7) Hp Ho Hw Hk Hc) as E.
  repeat split; try assumption; rewrite E; reflexivity.
Defined.

(** C5: in every state with an operation pending and
    [waitingForNewValue] set, pressing an operator replaces the pending
    operator and changes nothing else.  The keys [5 + ×] leave [5]
    staged with [×] pending, and [2 =] then shows ["10"]. *)
Theorem operator_substitution :
  (forall (s : CalculatorState) (next o : string) (p : number),
     previousValue s = Some p ->
     operation s = Some o ->
     is_operator o = true ->
     waitingForNewValue s = true ->
     performOperation next s =
       {| display := display s;
          previousValue := previousValue s;
          operation := Some next;
          waitingForNewValue := waitingForNewValue s;
          lastOperation := lastOperation s;
          lastOperand := lastOperand s |})
  /\ (let s := run [Digit D5; Operator Plus; Operator Times] initialState in
      display s = "5" /\ previousValue s = Some (of_Z 5)
      /\ operation s = Some op_times)
  /\ display (run [Digit D5; Operator Plus; Operator Times; Digit D2; Equals]
                initialState) = "10".
Proof.
  split; [|split; [vm_compute; repeat split | vm_compute; reflexivity]].
  intros s next o p Hp Ho Hv Hw.
  rewrite (performOperation_substitute s next p Hp); [now rewrite Hp, Hw| |exact Hw].
  rewrite Ho. unfold truthy_op, JSString.truthy.
  destruct (String.eqb_spec o ""); [|reflexivity]. subst o. discriminate.
Qed.

Lemma operator_substitution_witness :
  previousValue fivePlusState = Some (of_Z 5)
  /\ operation fivePlusState = Some op_plus
  /\ is_operator op_plus = true
  /\ waitingForNewValue fivePlusState = true
  /\ performOperation op_times fivePlusState =
       {| display := "5";
          previousValue := Some (of_Z 5);
          operation := Some op_times;
          waitingForNewValue := true;
          lastOperation := None;
          lastOperand := None |}.
Proof.
  assert (Hp : previousValue fivePlusState = Some (of_Z 5)) by reflexivity.
  assert (Ho : operation fivePlusState = Some op_plus) by reflexivity.
  assert (Hv : is_operator op_plus = true) by reflexivity.
  assert (Hw : waitingForNewValue fivePlusState = true) by reflexivity.
  pose proof (proj1 operator_substitution fivePlusState op_times op_plus
                (of_Z 5) Hp Ho Hv Hw) as E.
  repeat split; try assumption; rewrite E; reflexivity.
Defined.

(** ** An operator followed by equals *)

Lemma is_operator_cases (o : string) :
  is_operator o = true ->
  o = op_plus \/ o = op_minus \/ o = op_times \/ o = op_divide.
Proof.
  unfold is_operator. rewrite !Bool.orb_true_iff, !String.eqb_eq. tauto.
Qed.

Lemma compute_is_operator (o : string) (l r v : number) :
  compute o l r = Some v -> is_operator o = true.
Proof.
  unfold compute, is_operator.
  destruct (o =? op_plus)%string; [reflexivity|].
  destruct (o =? op_minus)%string; [reflexivity|].
  destruct (o =? op_times)%string; [reflexivity|].
  destruct (o =? op_divide)%string; [reflexivity|discriminate].
Qed.

(** An operator has no result only when it divides by zero. *)
Lemma compute_None (o : string) (l r : number) :
  is_operator o = true -> compute o l r = None ->
  o = op_divide /\ strict_eq r zero = true.
Proof.
  intros Ho. destruct (is_operator_cases o Ho) as [-> | [-> | [-> | ->]]];
    try discriminate.
  unfold compute. simpl. destruct (strict_eq r zero); [tauto|discriminate].
Qed.

Lemma compute_divide_nonzero (l r v : number) :
  compute op_divide l r = Some v -> strict_eq r zero = false.
Proof.
  unfold compute. simpl. now destruct (strict_eq r zero).
Qed.

(** An operation on [NaN] shows ["NaN"]. *)
Lemma show_compute_NaN (o : string) (l : number) :
  is_operator o = true -> show (compute o l NaN) = "NaN".
Proof.
  intros Ho. destruct (is_operator_cases o Ho) as [-> | [-> | [-> | ->]]];
    destruct l; reflexivity.
Qed.

(** Equals with a pending operator shows the outcome of the operation on
    the staged operand and the displayed value. *)
Lemma calculate_show (s : CalculatorState) (o : string) (p : number) :
  previousValue s = Some p ->
  operation s = Some o ->
  is_operator o = true ->
  display (calculate s) = show (compute o p (parseFloat (display s))).
Proof.
  intros Hp Ho Hv.
  destruct (compute o p (parseFloat (display s))) as [r|] eqn:Hc.
  - now rewrite (calculate_pending s o p r Hp Ho Hc).
  - destruct (compute_None _ _ _ Hv Hc) as [-> Hz].
    now rewrite (calculate_division_by_zero s p Hp Ho Hz).
Qed.

(** *** Reachable states are well formed *)

Lemma is_operator_symbol (o : operator) : is_operator (symbol o) = true.
Proof. now destruct o. Qed.

Ltac switch_cases :=
  unfold case_eq_op;
  repeat match goal with
         | |- context [if (?a =? ?b)%string then _ else _] =>
             destruct (a =? b)%string
         end.

Lemma well_formed_performOperation (o : operator) (s : CalculatorState) :
  well_formed s -> well_formed (performOperation (symbol o) s).
Proof.
  unfold well_formed, performOperation.
  destruct (previousValue s) as [p|] eqn:Hp;
    destruct (operation s) as [op|] eqn:Ho; try contradiction; intros H.
  - destruct (truthy_op (Some op) && waitingForNewValue s);
      cbn [previousValue operation]; [apply is_operator_symbol|].
    switch_cases; try destruct (strict_eq _ _);
      cbn [previousValue operation]; rewrite ?Hp, ?Ho;
      try exact I; try exact H; apply is_operator_symbol.
  - cbn [previousValue operation]. apply is_operator_symbol.
Qed.

Lemma well_formed_calculate (s : CalculatorState) :
  well_formed s -> well_formed (calculate s).
Proof.
  unfold well_formed, calculate.
  destruct (previousValue s) as [p|] eqn:Hp;
    destruct (operation s) as [op|] eqn:Ho; try contradiction; intros H.
  - switch_cases; try destruct (strict_eq _ _);
      cbn [previousValue operation]; rewrite ?Hp, ?Ho;
      try exact I; exact H.
  - assert (G : well_formed s) by (unfold well_formed; now rewrite Hp, Ho).
    destruct (lastOperation s) as [lo|]; [|exact G].
    destruct (truthy_op (Some lo)); [|exact G].
    destruct (lastOperand s) as [operand|]; [|exact G].
    switch_cases; try destruct (strict_eq _ _);
      cbn [previousValue operation]; rewrite ?Hp, ?Ho; exact I.
Qed.

Lemma well_formed_step (s : CalculatorState) (e : event) :
  well_formed s -> well_formed (step s e).
Proof.
  destruct e; simpl.
  - unfold well_formed, inputNumber.
    destruct (waitingForNewValue s); [trivial|]. now destruct (_ || _).
  - unfold well_formed, inputDecimal.
    destruct (waitingForNewValue s); [trivial|]. now destruct (_ =? _).
  - apply well_formed_performOperation.
  - apply well_formed_calculate.
  - intros _. exact I.
  - unfold well_formed, backspaceKey. now destruct (_ && _).
  - trivial.
Qed.

Lemma reachable_well_formed (s : CalculatorState) :
  reachable s -> well_formed s.
Proof.
  induction 1 as [|s e _ IH]; [exact I|]. now apply well_formed_step.
Qed.

(** C6 (as stated, refuted): after the keys [5 ÷ 0] the operator [×]
    takes the division-by-zero branch; nothing is pending afterwards and
    equals leaves ["Error"] on the display, which is the outcome of no
    operation with the displayed value on the right. *)
Lemma apply_then_calculate_counterexample :
  reachable divideByZeroState
  /\ is_operator op_times = true
  /\ previousValue (performOperation op_times divideByZeroState) = None
  /\ display (calculate (performOperation op_times divideByZeroState)) = "Error"
  /\ ~ right_operand_is_display (performOperation op_times divideByZeroState).
Proof.
  split; [apply reachable_run; constructor|].
  split; [reflexivity|]. split; [reflexivity|]. split; [reflexivity|].
  intros (o & l & Ho & E).
  change (parseFloat (display (performOperation op_times divideByZeroState)))
    with NaN in E.
  rewrite (show_compute_NaN o l Ho) in E. discriminate E.
Qed.

(** C6 (amended): in a well-formed state in which [performOperation]
    does not take its division-by-zero branch, [performOperation op]
    leaves an operand staged with [op] pending, and the display of a
    following [calculate] is the outcome of that operand [op] the value
    displayed after [performOperation].  With no operand staged before,
    that is [d op d] for the displayed value [d]. *)
Theorem apply_then_calculate (s : CalculatorState) (op : string) :
  well_formed s ->
  is_operator op = true ->
  division_by_zero_pending s = false ->
  (exists p : number,
     previousValue (performOperation op s) = Some p
     /\ operation (performOperation op s) = Some op
     /\ display (calculate (performOperation op s))
        = show (compute op p (parseFloat (display (performOperation op s)))))
  /\ right_operand_is_display (performOperation op s)
  /\ (previousValue s = None ->
      display (calculate (performOperation op s))
      = show (compute op (parseFloat (display s)) (parseFloat (display s)))).
Proof.
  intros Hwf Hop Hdz.
  assert (K : exists p : number,
             previousValue (performOperation op s) = Some p
             /\ operation (performOperation op s) = Some op
             /\ (previousValue s = None ->
                 p = parseFloat (display s)
                 /\ display (performOperation op s) = display s)).
  { unfold well_formed, division_by_zero_pending in *.
    destruct (previousValue s) as [p|] eqn:Hp.
    - destruct (operation s) as [o|] eqn:Ho; [|contradiction].
      destruct (waitingForNewValue s) eqn:Hw.
      + exists p. rewrite (performOperation_substitute s op p Hp); [|now rewrite Ho; destruct (is_operator_cases o Hwf) as [-> | [-> | [-> | ->]]]|exact Hw].
        repeat split; discriminate.
      + destruct (compute o (or_else p zero) (parseFloat (display s)))
          as [r|] eqn:Hc.
        * exists r. rewrite (performOperation_chain s op o p r Hp Ho Hw Hc).
          repeat split; discriminate.
        * destruct (compute_None _ _ _ Hwf Hc) as [-> Hz].
          simpl in Hdz. rewrite Hz in Hdz. discriminate.
    - exists (parseFloat (display s)).
      rewrite (performOperation_stage s op Hp). repeat split. }
  destruct K as (p & Kp & Ko & Kd).
  pose proof (calculate_show _ op p Kp Ko Hop) as E.
  split; [now exists p|]. split; [now exists op, p|].
  intros Hn. destruct (Kd Hn) as [-> Ed]. now rewrite E, Ed.
Qed.

Lemma apply_then_calculate_witness :
  well_formed threePlusFourState
  /\ is_operator op_times = true
  /\ division_by_zero_pending threePlusFourState = false
  /\ right_operand_is_display (performOperation op_times threePlusFourState).
Proof.
  assert (Hwf : well_formed threePlusFourState) by reflexivity.
  assert (Hop : is_operator op_times = true) by reflexivity.
  assert (Hdz : division_by_zero_pending threePlusFourState = false)
    by reflexivity.
  pose proof (apply_then_calculate threePlusFourState op_times Hwf Hop Hdz)
    as (_ & H & _).
  repeat split; assumption.
Defined.

(** ** Decimal points *)

Section DecimalPoint.

Let dots (s : CalculatorState) : nat := JSString.count "." (display s).

Lemma digit_key_no_dot (d : digit) : JSString.count "." (digit_key d) = 0%nat.
Proof. now destruct d. Qed.

Lemma typing_inputNumber (d : digit) (s : CalculatorState) :
  typing s -> typing (inputNumber (digit_key d) s).
Proof.
  unfold typing, dots, inputNumber. intros [Hw Hc]. rewrite Hw.
  destruct ((display s =? "0")%string || (display s =? "Error")%string);
    simpl; rewrite ?count_append, digit_key_no_dot; split; trivial; lia.
Qed.

Lemma typing_inputDecimal (s : CalculatorState) :
  typing s -> typing (inputDecimal s).
Proof.
  unfold typing, dots, inputDecimal. intros [Hw Hc]. rewrite Hw.
  destruct (Z.eqb_spec (JSString.indexOf (display s) ".") (-1)) as [E|N].
  - apply indexOf_absent in E. simpl. rewrite count_append, E. simpl.
    split; trivial; lia.
  - now split.
Qed.

Lemma typing_run (evs : list event) (s : CalculatorState) :
  forallb is_entry evs = true -> typing s -> typing (run evs s).
Proof.
  revert s. induction evs as [|e evs IH]; intros s Hall Hs; [exact Hs|].
  simpl in Hall. apply Bool.andb_true_iff in Hall as [He Hall].
  apply IH; [exact Hall|].
  destruct e; try discriminate; simpl.
  - now apply typing_inputNumber.
  - now apply typing_inputDecimal.
Qed.

(** A decimal point on a display that has one changes nothing. *)
Lemma inputDecimal_idempotent (s : CalculatorState) :
  waitingForNewValue s = false ->
  (0 < dots s)%nat ->
  inputDecimal s = s.
Proof.
  unfold dots, inputDecimal. intros Hw Hc. rewrite Hw.
  destruct (Z.eqb_spec (JSString.indexOf (display s) ".") (-1)) as [E|N];
    [|reflexivity].
  apply indexOf_absent in E. lia.
Qed.

End DecimalPoint.

(** C7: after any sequence of digit and decimal-point events from the
    initial state the display holds at most one ['.']; and when
    [waitingForNewValue] is unset and the display holds a ['.'],
    [inputDecimal] returns the state unchanged. *)
Theorem at_most_one_decimal_point :
  (forall evs : list event,
     forallb is_entry evs = true ->
     (JSString.count "." (display (run evs initialState)) <= 1)%nat)
  /\ (forall s : CalculatorState,
        waitingForNewValue s = false ->
        (0 < JSString.count "." (display s))%nat ->
        inputDecimal s = s).
Proof.
  split.
  - intros evs Hall. apply (typing_run evs initialState Hall).
    split; [reflexivity | simpl; lia].
  - exact inputDecimal_idempotent.
Qed.

Lemma at_most_one_decimal_point_witness :
  forallb is_entry [Digit D1; Decimal; Digit D2; Decimal; Decimal; Digit D5] = true
  /\ display (run [Digit D1; Decimal; Digit D2; Decimal; Decimal; Digit D5]
                initialState) = "1.25"
  /\ (JSString.count "."
        (display (run [Digit D1; Decimal; Digit D2; Decimal; Decimal; Digit D5]
                    initialState)) <= 1)%nat
  /\ waitingForNewValue onePointTwoState = false
  /\ (0 < JSString.count "." (display onePointTwoState))%nat
  /\ inputDecimal onePointTwoState = onePointTwoState.
Proof.
  assert (Hall : forallb is_entry
                   [Digit D1; Decimal; Digit D2; Decimal; Decimal; Digit D5] = true)
    by reflexivity.
  assert (Hw : waitingForNewValue onePointTwoState = false) by reflexivity.
  assert (Hd : (0 < JSString.count "." (display onePointTwoState))%nat)
    by (vm_compute; lia).
  pose proof (proj1 at_most_one_decimal_point _ Hall) as H.
  pose proof (proj2 at_most_one_decimal_point onePointTwoState Hw Hd) as H'.
  split; [exact Hall|]. split; [reflexivity|]. split; [exact H|].
  split; [exact Hw|]. split; [exact Hd | exact H'].
Defined.

(** ** The last operation and its operand *)

Section LastOperation.

Lemma same_last_refl (s : CalculatorState) : same_last s s.
Proof. now split. Qed.

Local Hint Resolve same_last_refl : core.

Lemma inputNumber_same_last (num : string) (s : CalculatorState) :
  same_last s (inputNumber num s).
Proof.
  unfold inputNumber. destruct (waitingForNewValue s); [now split|].
  destruct (_ || _); now split.
Qed.

Lemma inputDecimal_same_last (s : CalculatorState) :
  same_last s (inputDecimal s).
Proof.
  unfold inputDecimal. destruct (waitingForNewValue s); [now split|].
  destruct (_ =? _); [now split | auto].
Qed.

Lemma backspaceKey_same_last (s : CalculatorState) :
  same_last s (backspaceKey s).
Proof. unfold backspaceKey. destruct (_ && _); now split. Qed.

Lemma backspaceButton_same_last (s : CalculatorState) :
  same_last s (backspaceButton s).
Proof. now split. Qed.

(** [performOperation] either commits the result of the pending
    operation, recording its operator and right operand, or keeps the
    last operation. *)
Lemma performOperation_last (o : operator) (s : CalculatorState) :
  match pending_result s (Operator o) with
  | Some r =>
      display (performOperation (symbol o) s) = toString r
      /\ lastOperation (performOperation (symbol o) s) = operation s
      /\ lastOperand (performOperation (symbol o) s)
         = Some (parseFloat (display s))
  | None => same_last s (performOperation (symbol o) s)
  end.
Proof.
  unfold pending_result.
  destruct (previousValue s) as [p|] eqn:Hp.
  - destruct (operation s) as [op|] eqn:Ho.
    + destruct (truthy_op (Some op) && waitingForNewValue s) eqn:Hg.
      * apply Bool.andb_true_iff in Hg as [Ht Hw].
        rewrite (performOperation_substitute s _ p Hp); [now split| |exact Hw].
        now rewrite Ho.
      * destruct (compute op (or_else p zero) (parseFloat (display s)))
          as [r|] eqn:Hc.
        -- pose proof (compute_is_operator _ _ _ _ Hc) as Hv.
           assert (Hw : waitingForNewValue s = false).
           { destruct (waitingForNewValue s); [|reflexivity].
             rewrite Bool.andb_true_r in Hg.
             destruct (is_operator_cases op Hv) as [-> | [-> | [-> | ->]]];
               discriminate. }
           now rewrite (performOperation_chain s _ op p r Hp Ho Hw Hc).
        -- unfold performOperation. rewrite Hp, Ho, Hg.
           unfold compute, case_eq_op in *.
           destruct (op =? op_plus)%string; [discriminate|].
           destruct (op =? op_minus)%string; [discriminate|].
           destruct (op =? op_times)%string; [discriminate|].
           destruct (op =? op_divide)%string; [|auto].
           destruct (strict_eq _ zero); [now split|discriminate].
    + unfold performOperation. rewrite Hp, Ho. simpl. auto.
  - now rewrite (performOperation_stage s _ Hp).
Qed.

(** So does [calculate]; a repeat keeps the last operation. *)
Lemma calculate_last (s : CalculatorState) :
  match pending_result s Equals with
  | Some r =>
      display (calculate s) = toString r
      /\ lastOperation (calculate s) = operation s
      /\ lastOperand (calculate s) = Some (parseFloat (display s))
  | None => same_last s (calculate s)
  end.
Proof.
  unfold pending_result.
  assert (R : forall s', (previousValue s' = None \/ operation s' = None) ->
                         same_last s' (calculate s')).
  { clear s. intros s Hn.
    destruct (lastOperation s) as [o|] eqn:Ho;
      [|rewrite calculate_nothing; auto].
    destruct (lastOperand s) as [d|] eqn:Hd;
      [|rewrite calculate_nothing; auto].
    destruct (compute o (parseFloat (display s)) d) as [r|] eqn:Hc.
    - now rewrite (calculate_repeat s o d r Hn Ho Hd Hc).
    - unfold calculate.
      destruct Hn as [Hn|Hn]; rewrite Hn; [|destruct (previousValue s)];
        rewrite Ho, Hd; (destruct (truthy_op (Some o)); [|auto]);
        unfold compute, case_eq_op in *;
        (destruct (o =? op_plus)%string; [discriminate|]);
        (destruct (o =? op_minus)%string; [discriminate|]);
        (destruct (o =? op_times)%string; [discriminate|]);
        (destruct (o =? op_divide)%string; [|auto]);
        (destruct (strict_eq d zero); [now split|discriminate]). }
  destruct (previousValue s) as [p|] eqn:Hp; [|apply R; now left].
  destruct (operation s) as [op|] eqn:Ho; [|apply R; now right].
  destruct (compute op p (parseFloat (display s))) as [r|] eqn:Hc.
  - now rewrite (calculate_pending s op p r Hp Ho Hc).
  - unfold calculate. rewrite Hp, Ho.
    unfold compute, case_eq_op in *.
    destruct (op =? op_plus)%string; [discriminate|].
    destruct (op =? op_minus)%string; [discriminate|].
    destruct (op =? op_times)%string; [discriminate|].
    destruct (op =? op_divide)%string; [|auto].
    destruct (strict_eq _ zero); [now split|discriminate].
Qed.

(** Every event: clear resets the last operation, a committed pending
    result records it, anything else keeps it. *)
Lemma step_last (s : CalculatorState) (e : event) :
  match e, pending_result s e with
  | Clear, _ =>
      lastOperation (step s e) = None /\ lastOperand (step s e) = None
  | _, Some r =>
      display (step s e) = toString r
      /\ lastOperation (step s e) = operation s
      /\ lastOperand (step s e) = Some (parseFloat (display s))
  | _, None => same_last s (step s e)
  end.
Proof.
  destruct e.
  - apply inputNumber_same_last.
  - apply inputDecimal_same_last.
  - apply performOperation_last.
  - apply calculate_last.
  - now split.
  - apply backspaceKey_same_last.
  - apply backspaceButton_same_last.
Qed.

(** A pending result comes from a pending operator, and from a
    non-zero divisor when that operator is the division. *)
Lemma pending_result_operator (s : CalculatorState) (e : event) (r : number) :
  pending_result s e = Some r ->
  exists o, operation s = Some o /\ is_operator o = true
            /\ (o = op_divide -> strict_eq (parseFloat (display s)) zero = false).
Proof.
  unfold pending_result.
  destruct e; try discriminate;
    destruct (previousValue s) as [p|]; try discriminate;
    destruct (operation s) as [op|]; try discriminate;
    try destruct (truthy_op (Some op) && waitingForNewValue s);
    try discriminate;
    intros Hc; exists op; (split; [reflexivity|]);
    (split; [exact (compute_is_operator _ _ _ _ Hc)|]);
    intros ->; exact (compute_divide_nonzero _ _ _ Hc).
Qed.

Lemma last_ok_step (s : CalculatorState) (e : event) :
  last_ok s -> last_ok (step s e).
Proof.
  intros H. pose proof (step_last s e) as L. unfold last_ok in *.
  assert (K : same_last s (step s e) ->
              match lastOperation (step s e), lastOperand (step s e) with
              | None, None => True
              | Some o, Some v =>
                  is_operator o = true
                  /\ (o = op_divide -> strict_eq v zero = false)
              | _, _ => False
              end).
  { intros [-> ->]. exact H. }
  assert (C : forall r, pending_result s e = Some r ->
              display (step s e) = toString r
              /\ lastOperation (step s e) = operation s
              /\ lastOperand (step s e) = Some (parseFloat (display s)) ->
              match lastOperation (step s e), lastOperand (step s e) with
              | None, None => True
              | Some o, Some v =>
                  is_operator o = true
                  /\ (o = op_divide -> strict_eq v zero = false)
              | _, _ => False
              end).
  { intros r Hr (_ & -> & ->).
    destruct (pending_result_operator s e r Hr) as (o & -> & Hv & Hz).
    now split. }
  destruct e.
  - exact (K L).
  - exact (K L).
  - revert L. destruct (pending_result s (Operator o)) as [r|] eqn:Hr;
      intros L; [exact (C r eq_refl L) | exact (K L)].
  - revert L. destruct (pending_result s Equals) as [r|] eqn:Hr;
      intros L; [exact (C r eq_refl L) | exact (K L)].
  - exact I.
  - exact (K L).
  - exact (K L).
Qed.

Lemma reachable_last_ok (s : CalculatorState) : reachable s -> last_ok s.
Proof.
  induction 1 as [|s e _ IH]; [exact I|]. now apply last_ok_step.
Qed.

End LastOperation.

(** The guard [repeat_division_by_zero] is that of the ["Error"] branch
    of a repeat. *)
Lemma calculate_repeat_division_by_zero (s : CalculatorState) :
  repeat_division_by_zero s = true ->
  calculate s =
    {| display := "Error";
       previousValue := previousValue s;
       operation := operation s;
       waitingForNewValue := true;
       lastOperation := lastOperation s;
       lastOperand := lastOperand s |}.
Proof.
  unfold repeat_division_by_zero, calculate.
  destruct (previousValue s) as [p|]; [destruct (operation s) as [o|]|];
    try discriminate; intros H;
    apply Bool.andb_true_iff in H as [H Hz];
    apply Bool.andb_true_iff in H as [Ht Hd]; rewrite Ht;
    (destruct (lastOperand s) as [operand|]; [|discriminate]);
    (destruct (lastOperation s) as [o'|]; [|discriminate]);
    unfold case_eq_op in *; apply String.eqb_eq in Hd; subst o';
    simpl; now rewrite Hz.
Qed.

(** C8: in every reachable state the last operation and its operand are
    both present or both absent.  Clear resets both; an event that
    commits the result of the pending operation sets both, to the
    operator and the right operand it consumed; every other event keeps
    both: digit and decimal entry, both backspaces, operand staging,
    operator substitution, the division-by-zero branches, and a repeat. *)
Theorem last_operation_updates :
  (forall s : CalculatorState,
     reachable s -> (lastOperation s = None <-> lastOperand s = None))
  /\ (forall s : CalculatorState,
        lastOperation (step s Clear) = None /\ lastOperand (step s Clear) = None)
  /\ (forall (s : CalculatorState) (e : event) (r : number),
        pending_result s e = Some r ->
        display (step s e) = toString r
        /\ (exists o, operation s = Some o /\ lastOperation (step s e) = Some o)
        /\ lastOperand (step s e) = Some (parseFloat (display s)))
  /\ (forall (s : CalculatorState) (e : event),
        e <> Clear -> pending_result s e = None -> same_last s (step s e))
  /\ (forall (s : CalculatorState) (num : string),
        same_last s (inputNumber num s)
        /\ same_last s (inputDecimal s)
        /\ same_last s (backspaceKey s)
        /\ same_last s (backspaceButton s))
  /\ (forall (s : CalculatorState) (next : string),
        previousValue s = None -> same_last s (performOperation next s))
  /\ (forall (s : CalculatorState) (next : string) (p : number),
        previousValue s = Some p ->
        truthy_op (operation s) = true ->
        waitingForNewValue s = true ->
        same_last s (performOperation next s))
  /\ (forall (s : CalculatorState) (next : string) (p : number),
        previousValue s = Some p ->
        operation s = Some op_divide ->
        strict_eq (parseFloat (display s)) zero = true ->
        (waitingForNewValue s = false -> same_last s (performOperation next s))
        /\ same_last s (calculate s)).
Proof.
  split; [|split; [|split; [|split; [|split; [|split; [|split]]]]]].
  - intros s Hs. apply reachable_last_ok in Hs. unfold last_ok in Hs.
    destruct (lastOperation s), (lastOperand s); try contradiction;
      split; intros; congruence.
  - intros s. now split.
  - intros s e r Hr. pose proof (step_last s e) as L.
    destruct (pending_result_operator s e r Hr) as (o & Ho & _).
    destruct e; try discriminate Hr; cbv beta iota in L; rewrite Hr in L;
      destruct L as (L1 & L2 & L3);
      (split; [exact L1|]; split; [|exact L3]);
      exists o; (split; [exact Ho|]); now rewrite L2.
  - intros s e Hne Hr. pose proof (step_last s e) as L.
    destruct e; cbv beta iota in L; rewrite ?Hr in L; try exact L.
    now elim Hne.
  - intros s num. split; [apply inputNumber_same_last|].
    split; [apply inputDecimal_same_last|].
    split; [apply backspaceKey_same_last | apply backspaceButton_same_last].
  - intros s next Hp. now rewrite (performOperation_stage s next Hp).
  - intros s next p Hp Ho Hw.
    now rewrite (performOperation_substitute s next p Hp Ho Hw).
  - intros s next p Hp Ho Hz. split.
    + intros Hw.
      now rewrite (performOperation_division_by_zero s next p Hp Ho Hw Hz).
    + now rewrite (calculate_division_by_zero s p Hp Ho Hz).
Qed.

Lemma last_operation_updates_witness :
  reachable fourState
  /\ (lastOperation fourState = None <-> lastOperand fourState = None)
  /\ pending_result threePlusFourState Equals = Some (of_Z 7)
  /\ lastOperation (step threePlusFourState Equals) = Some op_plus
  /\ lastOperand (step threePlusFourState Equals) = Some (of_Z 4).
Proof.
  assert (Hs : reachable fourState) by (apply reachable_run; constructor).
  assert (Hr : pending_result threePlusFourState Equals = Some (of_Z 7))
    by reflexivity.
  pose proof (proj1 last_operation_updates fourState Hs) as H1.
  pose proof (proj1 (proj2 (proj2 last_operation_updates))
                threePlusFourState Equals (of_Z 7) Hr) as (_ & (o & Ho & H2) & H3).
  repeat split; try assumption; try apply H1.
Defined.

(** C10: in every reachable state, a last operation that is the division
    has an operand that is not zero; hence the guard of the branch of
    [calculate] that answers ["Error"] to a repeated division by zero is
    never met. *)
Theorem repeat_division_by_zero_unreachable (s : CalculatorState) :
  reachable s ->
  (lastOperation s = Some op_divide ->
   exists v, lastOperand s = Some v /\ strict_eq v zero = false)
  /\ repeat_division_by_zero s = false.
Proof.
  intros Hs. apply reachable_last_ok in Hs. unfold last_ok in Hs.
  assert (K : lastOperation s = Some op_divide ->
              exists v, lastOperand s = Some v /\ strict_eq v zero = false).
  { intros E. rewrite E in Hs.
    destruct (lastOperand s) as [v|]; [|contradiction].
    exists v. split; [reflexivity|]. now apply Hs. }
  split; [exact K|].
  unfold repeat_division_by_zero.
  assert (G : truthy_op (lastOperation s)
              && case_eq_op (lastOperation s) op_divide
              && match lastOperand s with
                 | Some operand => strict_eq operand zero
                 | None => false
                 end = false).
  { destruct (case_eq_op (lastOperation s) op_divide) eqn:Hd;
      [|now rewrite Bool.andb_false_r].
    unfold case_eq_op in Hd.
    destruct (lastOperation s) as [o|]; [|discriminate].
    apply String.eqb_eq in Hd. subst o.
    destruct (K eq_refl) as (v & -> & ->). apply Bool.andb_false_r. }
  destruct (previousValue s); [destruct (operation s)|]; trivial.
Qed.

Lemma repeat_division_by_zero_unreachable_witness :
  reachable fourState
  /\ lastOperation fourState = Some op_divide
  /\ (exists v, lastOperand fourState = Some v /\ strict_eq v zero = false)
  /\ repeat_division_by_zero fourState = false.
Proof.
  assert (Hs : reachable fourState) by (apply reachable_run; constructor).
  pose proof (repeat_division_by_zero_unreachable fourState Hs) as (H1 & H2).
  split; [exact Hs|]. split; [reflexivity|].
  split; [apply H1; reflexivity | exact H2].
Defined.

(** ** The display formatter *)

Section FormatterFacts.

Lemma of_Z_1000 : of_Z 1000 = S754_finite false 8796093022208000 (-43).
Proof. reflexivity. Qed.

Lemma of_Z_999999999999 :
  of_Z 999999999999 = S754_finite false 8191999999991808 (-13).
Proof. reflexivity. Qed.

(** A magnitude below 1000 is neither above 999999999999 nor at least
    1000. *)
Lemma below_1000 (x : number) :
  lt (abs x) (of_Z 1000) = true ->
  gt (abs x) (of_Z 999999999999) = false
  /\ ge (abs x) (of_Z 1000) = false.
Proof.
  rewrite of_Z_1000, of_Z_999999999999.
  unfold lt, gt, ge, SFltb, SFleb.
  destruct x as [s|s| |s m e]; cbn [abs SFabs SFcompare];
    try (intros; split; congruence).
  destruct (Z.compare_spec e (-43)) as [E|L|G]; try discriminate.
  - subst e. rewrite Z.compare_refl.
    change (-13 ?= -43) with Gt.
    assert (A : Pos.compare_cont Eq 8796093022208000 m
                = CompOpp (Pos.compare_cont Eq m 8796093022208000))
      by (symmetry; apply (Pos.compare_cont_antisym m _ Eq)).
    rewrite A.
    destruct (Pos.compare_cont Eq m 8796093022208000);
      try discriminate. intros _. now split.
  - intros _.
    replace (-13 ?= e) with Gt by (symmetry; apply Z.compare_gt_iff; lia).
    replace (-43 ?= e) with Gt by (symmetry; apply Z.compare_gt_iff; lia).
    now split.
Qed.

End FormatterFacts.

(** C9: the formatter returns its argument as it is when that is the
    literal ["Error"], when it does not parse as a number, and when it
    parses to a number of absolute value below 1000. *)
Theorem formatDisplay_identity
    (toExponential toLocaleString_enUS : number -> Z -> string) (value : string) :
  value = "Error"
  \/ isNaN (parseFloat value) = true
  \/ lt (abs (parseFloat value)) (of_Z 1000) = true ->
  formatDisplay toExponential toLocaleString_enUS value = value.
Proof.
  intros H. unfold formatDisplay.
  destruct (String.eqb_spec value "Error") as [E|N]; [reflexivity|].
  destruct (isNaN (parseFloat value)) eqn:Hn; [reflexivity|].
  destruct H as [H|[H|H]]; try congruence.
  destruct (below_1000 _ H) as [-> ->]. reflexivity.
Qed.

Lemma formatDisplay_identity_witness :
  lt (abs (parseFloat "999.5")) (of_Z 1000) = true
  /\ isNaN (parseFloat "1..2e") = false
  /\ isNaN (parseFloat "abc") = true
  /\ formatDisplay (fun _ _ => "") (fun _ _ => "") "999.5" = "999.5"
  /\ formatDisplay (fun _ _ => "") (fun _ _ => "") "abc" = "abc"
  /\ formatDisplay (fun _ _ => "") (fun _ _ => "") "Error" = "Error".
Proof.
  assert (H1 : lt (abs (parseFloat "999.5")) (of_Z 1000) = true) by reflexivity.
  assert (H2 : isNaN (parseFloat "abc") = true) by reflexivity.
  split; [exact H1|]. split; [reflexivity|]. split; [exact H2|].
  split; [|split].
  - apply formatDisplay_identity. right. right. exact H1.
  - apply formatDisplay_identity. right. left. exact H2.
  - apply formatDisplay_identity. left. reflexivity.
Defined.

(** * Further properties *)

(** ** Invariants of the pending operation *)

Lemma matches_case_operator (o : string) :
  matches_case (Some o) = is_operator o.
Proof. reflexivity. Qed.

(** The [default] branches return the state as it is. *)
Lemma default_branch_returns (s : CalculatorState) (e : event) :
  default_branch s e = true -> step s e = s.
Proof.
  unfold default_branch, matches_case.
  destruct e; try discriminate; simpl.
  - unfold performOperation.
    destruct (previousValue s) as [p|]; [|discriminate].
    intros H. apply Bool.andb_true_iff in H as [H1 H2].
    apply Bool.negb_true_iff in H1. apply Bool.negb_true_iff in H2.
    rewrite H1. rewrite !Bool.orb_false_iff in H2.
    destruct H2 as [[[-> ->] ->] ->]. reflexivity.
  - unfold calculate.
    destruct (previousValue s) as [p|]; [destruct (operation s) as [o|] eqn:Ho|].
    + intros H. apply Bool.negb_true_iff in H.
      rewrite !Bool.orb_false_iff in H.
      destruct H as [[[-> ->] ->] ->]. reflexivity.
    + intros H. apply Bool.andb_true_iff in H as [H H2].
      apply Bool.andb_true_iff in H as [H0 H1].
      apply Bool.negb_true_iff in H2. rewrite !Bool.orb_false_iff in H2.
      destruct H2 as [[[E1 E2] E3] E4]. rewrite H0, E1, E2, E3, E4.
      now destruct (lastOperand s).
    + intros H. apply Bool.andb_true_iff in H as [H H2].
      apply Bool.andb_true_iff in H as [H0 H1].
      apply Bool.negb_true_iff in H2. rewrite !Bool.orb_false_iff in H2.
      destruct H2 as [[[E1 E2] E3] E4]. rewrite H0, E1, E2, E3, E4.
      now destruct (lastOperand s).
Qed.

(** X1: in every reachable state the staged operand and the pending
    operation are both present or both absent, a pending or recorded
    operation is one of the four operator symbols, and no event takes a
    [default] branch of a [switch]. *)
Theorem pending_operation_invariant (s : CalculatorState) :
  reachable s ->
  (previousValue s = None <-> operation s = None)
  /\ (forall o, operation s = Some o -> is_operator o = true)
  /\ (forall o, lastOperation s = Some o -> is_operator o = true)
  /\ (forall e, default_branch s e = false).
Proof.
  intros Hs. pose proof (reachable_well_formed s Hs) as W.
  pose proof (reachable_last_ok s Hs) as L.
  unfold well_formed in W. unfold last_ok in L.
  split; [|split; [|split]].
  - destruct (previousValue s), (operation s); try contradiction;
      split; congruence.
  - intros o E. rewrite E in W. now destruct (previousValue s).
  - intros o E. rewrite E in L. destruct (lastOperand s); [apply L|contradiction].
  - intros e. unfold default_branch.
    destruct e; try reflexivity.
    + destruct (previousValue s); [|reflexivity].
      destruct (operation s) as [op|]; [|contradiction].
      rewrite matches_case_operator, W. apply Bool.andb_false_r.
    + destruct (previousValue s); destruct (operation s) as [op|];
        try contradiction.
      * now rewrite matches_case_operator, W.
      * destruct (lastOperation s) as [lo|]; [|reflexivity].
        destruct (lastOperand s); [|contradiction].
        destruct L as [L _]. rewrite matches_case_operator, L.
        apply Bool.andb_false_r.
Qed.

Lemma pending_operation_invariant_witness :
  reachable threePlusFourState
  /\ operation threePlusFourState = Some op_plus
  /\ is_operator op_plus = true
  /\ default_branch threePlusFourState (Operator Times) = false.
Proof.
  assert (Hs : reachable threePlusFourState) by (apply reachable_run; constructor).
  pose proof (pending_operation_invariant threePlusFourState Hs)
    as (_ & H2 & _ & H4).
  split; [exact Hs|]. split; [reflexivity|].
  split; [apply H2; reflexivity | apply H4].
Defined.

(** ** After an operator, after equals *)

Lemma truthy_operator (o : string) :
  is_operator o = true -> truthy_op (Some o) = true.
Proof.
  intros H. destruct (is_operator_cases o H) as [-> | [-> | [-> | ->]]];
    reflexivity.
Qed.

(** In a well-formed state [performOperation] takes one of its four named
    branches. *)
Lemma performOperation_cases (s : CalculatorState) (next : string) :
  well_formed s ->
  (previousValue s = None
   /\ performOperation next s =
        {| display := display s;
           previousValue := Some (parseFloat (display s));
           operation := Some next;
           waitingForNewValue := true;
           lastOperation := lastOperation s;
           lastOperand := lastOperand s |})
  \/ (exists p, previousValue s = Some p /\ waitingForNewValue s = true
        /\ performOperation next s =
             {| display := display s;
                previousValue := Some p;
                operation := Some next;
                waitingForNewValue := true;
                lastOperation := lastOperation s;
                lastOperand := lastOperand s |})
  \/ (exists p o r, previousValue s = Some p /\ operation s = Some o
        /\ waitingForNewValue s = false
        /\ compute o (or_else p zero) (parseFloat (display s)) = Some r
        /\ performOperation next s =
             {| display := toString r;
                previousValue := Some r;
                operation := Some next;
                waitingForNewValue := true;
                lastOperation := Some o;
                lastOperand := Some (parseFloat (display s)) |})
  \/ (division_by_zero_pending s = true
      /\ performOperation next s = divisionError s).
Proof.
  unfold well_formed. intros W.
  destruct (previousValue s) as [p|] eqn:Hp.
  - destruct (operation s) as [o|] eqn:Ho; [|contradiction].
    destruct (waitingForNewValue s) eqn:Hw.
    + right. left. exists p. repeat split.
      apply (performOperation_substitute s next p); trivial.
      rewrite Ho. now apply truthy_operator.
    + destruct (compute o (or_else p zero) (parseFloat (display s)))
        as [r|] eqn:Hc.
      * right. right. left. exists p, o, r. repeat split; trivial.
        now apply (performOperation_chain s next o p r).
      * right. right. right.
        destruct (compute_None _ _ _ W Hc) as [-> Hz]. split.
        -- unfold division_by_zero_pending. rewrite Hp, Hw, Ho, Hz. reflexivity.
        -- now apply (performOperation_division_by_zero s next p).
  - left. split; [reflexivity|]. now apply performOperation_stage.
Qed.

(** X2: in a well-formed state (so in every reachable one), whatever
    branch [performOperation] takes, it leaves [waitingForNewValue] set;
    the next digit therefore replaces the display and keeps what was
    staged. *)
Theorem operator_then_digit (s : CalculatorState) (o : operator) (num : string) :
  well_formed s ->
  waitingForNewValue (performOperation (symbol o) s) = true
  /\ display (inputNumber num (performOperation (symbol o) s)) = num
  /\ waitingForNewValue (inputNumber num (performOperation (symbol o) s)) = false
  /\ previousValue (inputNumber num (performOperation (symbol o) s))
     = previousValue (performOperation (symbol o) s)
  /\ operation (inputNumber num (performOperation (symbol o) s))
     = operation (performOperation (symbol o) s).
Proof.
  intros W.
  assert (Hw : waitingForNewValue (performOperation (symbol o) s) = true).
  { destruct (performOperation_cases s (symbol o) W)
      as [(_ & ->) | [(p & _ & _ & ->) | [(p & op & r & _ & _ & _ & _ & ->) | (_ & ->)]]];
      reflexivity. }
  split; [exact Hw|]. unfold inputNumber. rewrite Hw. repeat split.
Qed.

Lemma operator_then_digit_witness :
  well_formed threePlusFourState
  /\ display (run [Operator Times; Digit D2] threePlusFourState) = "2"
  /\ previousValue (run [Operator Times; Digit D2] threePlusFourState)
     = Some (of_Z 7).
Proof.
  assert (W : well_formed threePlusFourState) by reflexivity.
  pose proof (operator_then_digit threePlusFourState Times "2" W)
    as (_ & H & _ & _ & _).
  split; [exact W|]. split; [exact H | reflexivity].
Defined.

(** X3: in a well-formed state, after [calculate] nothing is pending. *)
Theorem nothing_pending_after_equals (s : CalculatorState) :
  well_formed s ->
  previousValue (calculate s) = None /\ operation (calculate s) = None.
Proof.
  unfold well_formed. intros W.
  destruct (previousValue s) as [p|] eqn:Hp;
    destruct (operation s) as [o|] eqn:Ho; try contradiction.
  - destruct (compute o p (parseFloat (display s))) as [r|] eqn:Hc.
    + now rewrite (calculate_pending s o p r Hp Ho Hc).
    + destruct (compute_None _ _ _ W Hc) as [-> Hz].
      now rewrite (calculate_division_by_zero s p Hp Ho Hz).
  - assert (K : forall s', s' = calculate s ->
                previousValue s' = None /\ operation s' = None).
    { intros s' ->. unfold calculate. rewrite Hp, Ho.
      destruct (truthy_op (lastOperation s)); [|now rewrite Hp, Ho].
      destruct (lastOperand s) as [d|]; [|now rewrite Hp, Ho].
      destruct (lastOperation s) as [lo|]; unfold case_eq_op;
        [|now rewrite Hp, Ho].
      destruct (lo =? op_plus)%string; [now split|].
      destruct (lo =? op_minus)%string; [now split|].
      destruct (lo =? op_times)%string; [now split|].
      destruct (lo =? op_divide)%string; [|now rewrite Hp, Ho].
      destruct (strict_eq d zero); now split. }
    now apply K.
Qed.

Lemma nothing_pending_after_equals_witness :
  well_formed threePlusFourState
  /\ previousValue threePlusFourState = Some (of_Z 3)
  /\ previousValue (calculate threePlusFourState) = None
  /\ operation (calculate threePlusFourState) = None.
Proof.
  assert (W : well_formed threePlusFourState) by reflexivity.
  pose proof (nothing_pending_after_equals threePlusFourState W) as (H1 & H2).
  repeat split; assumption.
Defined.

(** X4: of two operators pressed in a row the last one wins: unless the
    first press divides by zero, pressing [o1] then [o2] gives the state
    that pressing [o2] alone gives. *)
Theorem last_operator_wins (s : CalculatorState) (o1 o2 : operator) :
  well_formed s ->
  division_by_zero_pending s = false ->
  performOperation (symbol o2) (performOperation (symbol o1) s)
  = performOperation (symbol o2) s.
Proof.
  intros W Hz.
  destruct (performOperation_cases s (symbol o1) W)
    as [(Hp & E1) | [(p & Hp & Hw & E1) | [(p & o & r & Hp & Ho & Hw & Hc & E1) | (Hd & _)]]];
    [| | |congruence].
  - rewrite E1, (performOperation_stage s (symbol o2) Hp).
    now rewrite (performOperation_substitute _ (symbol o2) (parseFloat (display s)));
      try reflexivity; try apply truthy_operator, is_operator_symbol.
  - rewrite E1.
    assert (T : truthy_op (operation s) = true).
    { unfold well_formed in W. rewrite Hp in W.
      destruct (operation s) as [o|]; [|contradiction].
      now apply truthy_operator. }
    rewrite (performOperation_substitute s (symbol o2) p Hp T Hw).
    now rewrite (performOperation_substitute _ (symbol o2) p);
      try reflexivity; try apply truthy_operator, is_operator_symbol.
  - rewrite E1, (performOperation_chain s (symbol o2) o p r Hp Ho Hw Hc).
    now rewrite (performOperation_substitute _ (symbol o2) r);
      try reflexivity; try apply truthy_operator, is_operator_symbol.
Qed.

Lemma last_operator_wins_witness :
  well_formed threePlusFourState
  /\ division_by_zero_pending threePlusFourState = false
  /\ run [Operator Minus; Operator Times] threePlusFourState
     = run [Operator Times] threePlusFourState.
Proof.
  assert (W : well_formed threePlusFourState) by reflexivity.
  assert (Hz : division_by_zero_pending threePlusFourState = false) by reflexivity.
  pose proof (last_operator_wins threePlusFourState Minus Times W Hz) as H.
  repeat split; assumption.
Defined.

(** X5: clear forgets everything: whatever the state and the events
    before it, the events after a clear run as from the initial state. *)
Theorem clear_restarts (before after : list event) (s : CalculatorState) :
  run (before ++ Clear :: after)%list s = run after initialState.
Proof. unfold run. now rewrite fold_left_app. Qed.

(** ** Backspace: the two paths, and undoing an entry *)

Lemma snoc_inj (a b : string) (c d : ascii) :
  a ++ String c "" = b ++ String d "" -> a = b /\ c = d.
Proof.
  revert b. induction a as [|x a IH]; intros [|y b]; simpl; intros E.
  - now inversion E.
  - inversion E as [[E1 E2]]. destruct b; discriminate.
  - inversion E as [[E1 E2]]. destruct a; discriminate.
  - inversion E as [[E1 E2]]. destruct (IH b E2) as [-> ->]. now split.
Qed.

Lemma or_else_nonempty (a b : string) : a <> "" -> JSString.or_else a b = a.
Proof. destruct a; [congruence | reflexivity]. Qed.

Lemma length_gt_1_snoc (s : string) :
  (1 < String.length s)%nat ->
  exists front c, front <> "" /\ s = front ++ String c "".
Proof.
  intros H. destruct (string_snoc s) as (front & c & E).
  { intros ->. simpl in H. lia. }
  exists front, c. split; [|exact E].
  intros ->. rewrite E in H. simpl in H. lia.
Qed.

(** The two backspace updaters leave the same display unless it was
    ["Error"]. *)
Lemma backspace_displays_agree (s : CalculatorState) :
  display s <> "Error" ->
  display (backspaceKey s) = display (backspaceButton s).
Proof.
  intros NE. unfold backspaceKey, backspaceButton.
  destruct (String.eqb_spec (display s) "Error") as [E|_]; [contradiction|].
  rewrite Bool.andb_true_r.
  destruct (Z.ltb_spec 1 (Z.of_nat (String.length (display s)))) as [L|L].
  - destruct (length_gt_1_snoc (display s)) as (front & c & Hf & E); [lia|].
    cbn [display].
    rewrite E, slice_snoc, (or_else_nonempty front "0" Hf). reflexivity.
  - destruct (display s) as [|c [|d rest]]; try reflexivity.
    simpl String.length in L. lia.
Qed.

Lemma state_eta (s : CalculatorState) :
  {| display := display s;
     previousValue := previousValue s;
     operation := operation s;
     waitingForNewValue := waitingForNewValue s;
     lastOperation := lastOperation s;
     lastOperand := lastOperand s |} = s.
Proof. now destruct s. Qed.

Lemma backspaceKey_keeps (s : CalculatorState) :
  previousValue (backspaceKey s) = previousValue s
  /\ operation (backspaceKey s) = operation s
  /\ waitingForNewValue (backspaceKey s) = waitingForNewValue s
  /\ lastOperation (backspaceKey s) = lastOperation s
  /\ lastOperand (backspaceKey s) = lastOperand s.
Proof. unfold backspaceKey. destruct (_ && _); now repeat split. Qed.

(** X6: the [Backspace] key and the on-screen delete button give the
    same state on every display but ["Error"]. *)
Theorem backspace_paths_agree (s : CalculatorState) :
  display s <> "Error" -> backspaceKey s = backspaceButton s.
Proof.
  intros NE.
  destruct (backspaceKey_keeps s) as (E1 & E2 & E3 & E4 & E5).
  rewrite <- (state_eta (backspaceKey s)), <- (state_eta (backspaceButton s)).
  rewrite (backspace_displays_agree s NE), E1, E2, E3, E4, E5.
  reflexivity.
Qed.

Lemma backspace_paths_agree_witness :
  display onePointTwoState <> "Error"
  /\ backspaceKey onePointTwoState = backspaceButton onePointTwoState
  /\ display (backspaceButton onePointTwoState) = "1.".
Proof.
  assert (NE : display onePointTwoState <> "Error") by discriminate.
  pose proof (backspace_paths_agree onePointTwoState NE) as H.
  split; [exact NE|]. split; [exact H | reflexivity].
Defined.

Lemma digit_key_char (d : digit) :
  exists c, digit_key d = String c "" /\ JSString.is_digit c = true.
Proof. destruct d; eexists; split; reflexivity. Qed.

(** Backspace on a display that was extended by one character, which is
    not the last one of ["Error"], gives the display back. *)
Lemma backspaceKey_snoc (s : CalculatorState) (front : string) (c : ascii) :
  front <> "" -> c <> "r"%char ->
  display s = front ++ String c "" ->
  display (backspaceKey s) = front.
Proof.
  intros Hf Hc E. unfold backspaceKey. rewrite E.
  replace (1 <? Z.of_nat (String.length (front ++ String c ""))) with true.
  - destruct (String.eqb_spec (front ++ String c "") "Error") as [E'|_].
    + change "Error" with ("Erro" ++ String "r" "") in E'.
      apply snoc_inj in E' as [_ ->]. contradiction.
    + simpl. apply slice_snoc.
  - symmetry. apply Z.ltb_lt. rewrite length_append. simpl.
    destruct front; [contradiction|]. simpl. lia.
Qed.

(** X7: backspace undoes an entry.  When [waitingForNewValue] is unset
    and the display is neither empty nor ["Error"], a digit followed by
    backspace (key or button) gives the state back; so does a decimal
    point followed by backspace when the display had none. *)
Theorem backspace_undoes_entry (s : CalculatorState) (d : digit) :
  waitingForNewValue s = false ->
  display s <> "" ->
  (display s <> "Error" ->
   backspaceKey (inputNumber (digit_key d) s) = s
   /\ backspaceButton (inputNumber (digit_key d) s) = s)
  /\ (JSString.indexOf (display s) "." = -1 ->
      backspaceKey (inputDecimal s) = s
      /\ backspaceButton (inputDecimal s) = s).
Proof.
  intros Hw Hne.
  assert (K : forall s', previousValue s' = previousValue s ->
                         operation s' = operation s ->
                         waitingForNewValue s' = waitingForNewValue s ->
                         lastOperation s' = lastOperation s ->
                         lastOperand s' = lastOperand s ->
                         display (backspaceKey s') = display s ->
                         display s' <> "Error" ->
                         backspaceKey s' = s /\ backspaceButton s' = s).
  { intros s' E1 E2 E3 E4 E5 E6 NE.
    destruct (backspaceKey_keeps s') as (K1 & K2 & K3 & K4 & K5).
    split.
    - rewrite <- (state_eta s), <- (state_eta (backspaceKey s')).
      congruence.
    - rewrite <- (state_eta s), <- (state_eta (backspaceButton s')).
      rewrite <- (backspace_displays_agree s' NE), E6.
      cbn [backspaceButton previousValue operation waitingForNewValue
           lastOperation lastOperand]. congruence. }
  split.
  - intros NE. destruct (digit_key_char d) as (c & Ec & Hc).
    assert (Hr : c <> "r"%char) by (intros ->; discriminate).
    unfold inputNumber. rewrite Hw.
    destruct (String.eqb_spec (display s) "0") as [E0|N0]; simpl.
    + apply K; try reflexivity; try (simpl; now rewrite Hw).
      * rewrite E0, Ec. reflexivity.
      * simpl. rewrite Ec. intros E. inversion E.
    + destruct (String.eqb_spec (display s) "Error") as [|_]; [contradiction|].
      apply K; try reflexivity; try (simpl; now rewrite Hw).
      * apply (backspaceKey_snoc _ (display s) c Hne Hr). simpl. now rewrite Ec.
      * simpl. rewrite Ec. change "Error" with ("Erro" ++ String "r" "").
        intros E. apply snoc_inj in E as [_ ->]. contradiction.
  - intros Hi. unfold inputDecimal. rewrite Hw, Hi. simpl.
    apply K; try reflexivity; try (simpl; now rewrite Hw).
    + apply (backspaceKey_snoc _ (display s) "."%char Hne); [discriminate|reflexivity].
    + simpl. change "Error" with ("Erro" ++ String "r" "").
      intros E. apply snoc_inj in E as [_ E]. discriminate.
Qed.

Lemma backspace_undoes_entry_witness :
  waitingForNewValue onePointTwoState = false
  /\ display onePointTwoState <> ""
  /\ display onePointTwoState <> "Error"
  /\ display (inputNumber "7" onePointTwoState) = "1.27"
  /\ run [Digit D7; Backspace] onePointTwoState = onePointTwoState
  /\ run [Digit D7; DeleteButton] onePointTwoState = onePointTwoState.
Proof.
  assert (Hw : waitingForNewValue onePointTwoState = false) by reflexivity.
  assert (Hne : display onePointTwoState <> "") by discriminate.
  assert (NE : display onePointTwoState <> "Error") by discriminate.
  pose proof (proj1 (backspace_undoes_entry onePointTwoState D7 Hw Hne) NE)
    as (H1 & H2).
  split; [exact Hw|]. split; [exact Hne|]. split; [exact NE|].
  split; [reflexivity|]. split; [exact H1 | exact H2].
Defined.

(** ** Typing a number *)

Section Typing.

Lemma is_digit_plain (c : ascii) :
  JSString.is_digit c = true ->
  JSString.is_space c = false
  /\ Ascii.eqb c "+" = false
  /\ Ascii.eqb c "-" = false
  /\ c <> "I"%char.
Proof.
  destruct c as [[] [] [] [] [] [] [] []]; intros H; try discriminate H;
    repeat split; discriminate.
Qed.

Lemma span_digits_all (s : string) :
  all_digits s = true -> JSString.span_digits s = (s, "").
Proof.
  induction s as [|c s IH]; simpl; [reflexivity|].
  intros H. apply Bool.andb_true_iff in H as [Hc Hs].
  now rewrite Hc, (IH Hs).
Qed.

Lemma all_digits_append (a b : string) :
  all_digits (a ++ b) = all_digits a && all_digits b.
Proof.
  induction a as [|c a IH]; simpl; [reflexivity|].
  now rewrite IH, Bool.andb_assoc.
Qed.

Lemma digits_value_acc_append (a b : string) (acc : Z) :
  JSString.digits_value_acc (a ++ b) acc
  = JSString.digits_value_acc b (JSString.digits_value_acc a acc).
Proof. revert acc. induction a as [|c a IH]; simpl; intros; [reflexivity|apply IH]. Qed.

Lemma digit_value_nonneg (c : ascii) :
  JSString.is_digit c = true -> 0 <= JSString.digit_value c.
Proof.
  unfold JSString.is_digit, JSString.digit_value. cbv zeta. intros H.
  apply Bool.andb_true_iff in H as [H _]. apply Z.leb_le in H. lia.
Qed.

Lemma digits_value_acc_nonneg (s : string) (acc : Z) :
  all_digits s = true -> 0 <= acc -> 0 <= JSString.digits_value_acc s acc.
Proof.
  revert acc. induction s as [|c s IH];
    cbn [JSString.digits_value_acc all_digits]; intros acc H Ha; [exact Ha|].
  apply Bool.andb_true_iff in H as [Hc Hs]. apply IH; [exact Hs|].
  pose proof (digit_value_nonneg c Hc). lia.
Qed.

(** [parseFloat] on a non-empty string of digits is the number nearest
    to their value. *)
Lemma parseFloat_digits (s : string) :
  all_digits s = true -> s <> "" ->
  parseFloat s = of_Z (JSString.digits_value s).
Proof.
  intros H Hne.
  pose proof (digits_value_acc_nonneg s 0 H (Z.le_refl 0)) as Hv.
  fold (JSString.digits_value s) in Hv.
  destruct s as [|c rest]; [congruence|].
  pose proof H as H'. simpl in H'. apply Bool.andb_true_iff in H' as [Hc _].
  destruct (is_digit_plain c Hc) as (Hs & Hp & Hm & HI).
  unfold parseFloat. cbn [JSString.trim_start]. rewrite Hs, Hp, Hm.
  unfold parse_unsigned. cbn [String.prefix].
  destruct (ascii_dec "I" c) as [E|_]; [now elim HI|].
  rewrite (span_digits_all _ H). cbn [String.eqb].
  unfold of_Z.
  replace (JSString.digits_value (String c rest) <? 0) with false
    by (symmetry; apply Z.ltb_ge; exact Hv).
  now rewrite Z.abs_eq.
Qed.

Lemma digit_key_value (d : digit) :
  all_digits (digit_key d) = true
  /\ JSString.digits_value (digit_key d) = digit_Z d
  /\ digit_key d <> "".
Proof. destruct d; repeat split; discriminate. Qed.

Lemma entering_start (s : CalculatorState) (d : digit) :
  waitingForNewValue s = true ->
  entering (inputNumber (digit_key d) s) (digit_Z d).
Proof.
  intros Hw. unfold entering, inputNumber. rewrite Hw. simpl.
  destruct (digit_key_value d) as (H1 & H2 & H3). now repeat split.
Qed.

Lemma entering_inputNumber (s : CalculatorState) (v : Z) (d : digit) :
  entering s v -> entering (inputNumber (digit_key d) s) (10 * v + digit_Z d).
Proof.
  intros (Hw & Ha & Hne & Hv). unfold entering, inputNumber. rewrite Hw.
  destruct (digit_key_value d) as (H1 & H2 & H3).
  destruct (String.eqb_spec (display s) "0") as [E0|N0]; simpl.
  - rewrite E0 in Hv. cbv in Hv. subst v. now repeat split.
  - destruct (String.eqb_spec (display s) "Error") as [E|_].
    + rewrite E in Ha. discriminate.
    + simpl. rewrite all_digits_append, Ha, H1. repeat split.
      * destruct (display s); [congruence|discriminate].
      * unfold JSString.digits_value in *.
        rewrite digits_value_acc_append, Hv.
        destruct d; reflexivity.
Qed.

Lemma entering_run (ds : list digit) (s : CalculatorState) (v : Z) :
  entering s v ->
  entering (run (map Digit ds) s)
    (fold_left (fun acc d => 10 * acc + digit_Z d) ds v).
Proof.
  revert s v. induction ds as [|d ds IH]; intros s v H; [exact H|].
  simpl. apply IH. now apply entering_inputNumber.
Qed.

Lemma entering_parseFloat (s : CalculatorState) (v : Z) :
  entering s v -> parseFloat (display s) = of_Z v.
Proof.
  intros (_ & Ha & Hne & <-). now apply parseFloat_digits.
Qed.

(** Digit entry keeps what is staged and what was recorded. *)
Lemma digits_keep_pending (ds : list digit) (s : CalculatorState) :
  previousValue (run (map Digit ds) s) = previousValue s
  /\ operation (run (map Digit ds) s) = operation s
  /\ lastOperation (run (map Digit ds) s) = lastOperation s
  /\ lastOperand (run (map Digit ds) s) = lastOperand s.
Proof.
  revert s. induction ds as [|d ds IH]; intros s; [now repeat split|].
  simpl. destruct (IH (inputNumber (digit_key d) s)) as (-> & -> & -> & ->).
  unfold inputNumber. destruct (waitingForNewValue s); [now repeat split|].
  destruct (_ || _); now repeat split.
Qed.

End Typing.

(** X8: typing digits enters their number.  From the initial state the
    display after the digits [ds] parses to the value of [ds]; in any
    state with [waitingForNewValue] set (after an operator or a result)
    the display after the digits [d :: ds] parses to their value, and the
    staged operand and pending operation are kept. *)
Theorem typed_digits_parse :
  (forall ds : list digit,
     parseFloat (display (run (map Digit ds) initialState)) = of_Z (digits_Z ds))
  /\ (forall (s : CalculatorState) (d : digit) (ds : list digit),
        waitingForNewValue s = true ->
        parseFloat (display (run (map Digit (d :: ds)) s))
        = of_Z (digits_Z (d :: ds))
        /\ previousValue (run (map Digit (d :: ds)) s) = previousValue s
        /\ operation (run (map Digit (d :: ds)) s) = operation s).
Proof.
  split.
  - intros ds. apply (entering_parseFloat _ (digits_Z ds)).
    apply entering_run. now repeat split.
  - intros s d ds Hw. split.
    + apply (entering_parseFloat _ (digits_Z (d :: ds))).
      simpl. unfold digits_Z. simpl.
      apply entering_run. now apply entering_start.
    + destruct (digits_keep_pending (d :: ds) s) as (H1 & H2 & _).
      now split.
Qed.

Lemma typed_digits_parse_witness :
  waitingForNewValue fivePlusState = true
  /\ display (run (map Digit [D0; D4; D2]) fivePlusState) = "42"
  /\ parseFloat (display (run (map Digit [D0; D4; D2]) fivePlusState)) = of_Z 42
  /\ previousValue (run (map Digit [D0; D4; D2]) fivePlusState) = Some (of_Z 5).
Proof.
  assert (Hw : waitingForNewValue fivePlusState = true) by reflexivity.
  pose proof (proj2 typed_digits_parse fivePlusState D0 [D4; D2] Hw)
    as (H1 & H2 & _).
  split; [exact Hw|]. split; [reflexivity|]. split; [exact H1|].
  rewrite H2. reflexivity.
Defined.

(** ** Chaining against equals *)

(** X9: pressing an operator shows what equals would show.  With an
    operation pending, a new operand entered and a staged operand that
    [||] keeps (any but [NaN] and [-0]), [performOperation] displays and
    records what [calculate] does; it differs in staging the result with
    the new operator. *)
Theorem chain_agrees_with_equals
    (s : CalculatorState) (next o : string) (p r : number) :
  previousValue s = Some p ->
  operation s = Some o ->
  waitingForNewValue s = false ->
  or_else p zero = p ->
  compute o p (parseFloat (display s)) = Some r ->
  display (performOperation next s) = display (calculate s)
  /\ lastOperation (performOperation next s) = lastOperation (calculate s)
  /\ lastOperand (performOperation next s) = lastOperand (calculate s)
  /\ previousValue (performOperation next s) = Some r
  /\ operation (performOperation next s) = Some next.
Proof.
  intros Hp Ho Hw Hk Hc.
  rewrite (calculate_pending s o p r Hp Ho Hc).
  rewrite <- Hk in Hc.
  rewrite (performOperation_chain s next o p r Hp Ho Hw Hc).
  repeat split.
Qed.

Lemma chain_agrees_with_equals_witness :
  previousValue threePlusFourState = Some (of_Z 3)
  /\ operation threePlusFourState = Some op_plus
  /\ waitingForNewValue threePlusFourState = false
  /\ or_else (of_Z 3) zero = of_Z 3
  /\ compute op_plus (of_Z 3) (parseFloat (display threePlusFourState))
     = Some (of_Z 7)
  /\ display (performOperation op_times threePlusFourState)
     = display (calculate threePlusFourState).
Proof.
  assert (Hp : previousValue threePlusFourState = Some (of_Z 3)) by reflexivity.
  assert (Ho : operation threePlusFourState = Some op_plus) by reflexivity.
  assert (Hw : waitingForNewValue threePlusFourState = false) by reflexivity.
  assert (Hk : or_else (of_Z 3) zero = of_Z 3) by reflexivity.
  assert (Hc : compute op_plus (of_Z 3) (parseFloat (display threePlusFourState))
               = Some (of_Z 7)) by reflexivity.
  pose proof (chain_agrees_with_equals threePlusFourState op_times op_plus
                (of_Z 3) (of_Z 7) Hp Ho Hw Hk Hc) as (H & _).
  repeat split; assumption.
Defined.

Lemma compute_NaN_left (o : string) (r v : number) :
  compute o NaN r = Some v -> v = NaN.
Proof.
  unfold compute.
  destruct (o =? op_plus)%string; [intros E; now inversion E|].
  destruct (o =? op_minus)%string; [intros E; now inversion E|].
  destruct (o =? op_times)%string; [intros E; now inversion E|].
  destruct (o =? op_divide)%string; [|discriminate].
  destruct (strict_eq r zero); [discriminate|]. intros E. now inversion E.
Qed.

(** X10: an operator pressed on an ["Error"] display stages [NaN].  With
    [NaN] staged and an operand other than zero entered, equals computes
    with [NaN] and shows ["NaN"], whereas a further operator computes
    with [0] in its place ([previousValue || 0]) and stages that result. *)
Theorem staged_NaN_chain_and_equals_differ :
  (forall (s : CalculatorState) (next : string),
     display s = "Error" -> previousValue s = None ->
     previousValue (performOperation next s) = Some NaN)
  /\ (forall (s : CalculatorState) (next o : string),
        previousValue s = Some NaN ->
        operation s = Some o ->
        is_operator o = true ->
        waitingForNewValue s = false ->
        strict_eq (parseFloat (display s)) zero = false ->
        display (calculate s) = "NaN"
        /\ exists r, compute o zero (parseFloat (display s)) = Some r
                     /\ display (performOperation next s) = toString r
                     /\ previousValue (performOperation next s) = Some r).
Proof.
  split.
  - intros s next E Hp. rewrite (performOperation_stage s next Hp). simpl.
    now rewrite E.
  - intros s next o Hp Ho Hv Hw Hz.
    assert (C : forall l, exists r, compute o l (parseFloat (display s)) = Some r).
    { intros l. destruct (compute o l (parseFloat (display s))) as [r|] eqn:Hc;
        [now exists r|].
      destruct (compute_None _ _ _ Hv Hc) as [_ Hz']. congruence. }
    split.
    + destruct (C NaN) as (r & Hc).
      rewrite (calculate_pending s o NaN r Hp Ho Hc).
      now rewrite (compute_NaN_left _ _ _ Hc).
    + destruct (C zero) as (r & Hc). exists r. split; [exact Hc|].
      now rewrite (performOperation_chain s next o NaN r Hp Ho Hw Hc).
Qed.

Lemma staged_NaN_chain_and_equals_differ_witness :
  previousValue errorPlusThreeState = Some NaN
  /\ operation errorPlusThreeState = Some op_plus
  /\ is_operator op_plus = true
  /\ waitingForNewValue errorPlusThreeState = false
  /\ strict_eq (parseFloat (display errorPlusThreeState)) zero = false
  /\ display (calculate errorPlusThreeState) = "NaN"
  /\ display (performOperation op_times errorPlusThreeState) = "3".
Proof.
  assert (Hp : previousValue errorPlusThreeState = Some NaN) by reflexivity.
  assert (Ho : operation errorPlusThreeState = Some op_plus) by reflexivity.
  assert (Hv : is_operator op_plus = true) by reflexivity.
  assert (Hw : waitingForNewValue errorPlusThreeState = false) by reflexivity.
  assert (Hz : strict_eq (parseFloat (display errorPlusThreeState)) zero = false)
    by reflexivity.
  pose proof (proj2 staged_NaN_chain_and_equals_differ errorPlusThreeState
                op_times op_plus Hp Ho Hv Hw Hz) as (H1 & _).
  repeat split; try assumption.
Defined.

(** ** The ["Error"] sentinel *)

Section Sentinel.

Lemma is_digit_not_E (c : ascii) :
  JSString.is_digit c = true -> Ascii.eqb c "E" = false.
Proof.
  destruct c as [[] [] [] [] [] [] [] []]; intros H; try discriminate H;
    reflexivity.
Qed.

Lemma is_digit_digit_char (n : Z) :
  JSString.is_digit (JSString.digit_char (n mod 10)) = true.
Proof.
  pose proof (Z.mod_pos_bound n 10 eq_refl) as B.
  assert (C : n mod 10 = 0 \/ n mod 10 = 1 \/ n mod 10 = 2 \/ n mod 10 = 3
              \/ n mod 10 = 4 \/ n mod 10 = 5 \/ n mod 10 = 6 \/ n mod 10 = 7
              \/ n mod 10 = 8 \/ n mod 10 = 9) by lia.
  destruct C as [-> | [-> | [-> | [-> | [-> | [-> | [-> | [-> | [-> | ->]]]]]]]]];
    reflexivity.
Qed.

Lemma all_digits_digits_fuel (fuel : nat) (n : Z) (acc : string) :
  all_digits acc = true -> all_digits (JSString.digits_fuel fuel n acc) = true.
Proof.
  revert n acc. induction fuel as [|f IH]; intros n acc H; [exact H|].
  cbn [JSString.digits_fuel].
  assert (H' : all_digits (String (JSString.digit_char (n mod 10)) acc) = true).
  { cbn [all_digits]. now rewrite is_digit_digit_char. }
  destruct (n <? 10); [exact H' | now apply IH].
Qed.

Lemma all_digits_of_Z (n : Z) : all_digits (JSString.of_Z n) = true.
Proof. now apply all_digits_digits_fuel. Qed.

Lemma all_digits_strip (s : string) :
  all_digits s = true -> all_digits (JSString.strip_trailing_zeros s) = true.
Proof.
  induction s as [|c s IH]; [trivial|].
  cbn [all_digits JSString.strip_trailing_zeros]. intros H.
  apply Bool.andb_true_iff in H as [Hc Hs]. specialize (IH Hs).
  destruct (JSString.strip_trailing_zeros s) as [|d r].
  - destruct (Ascii.eqb c "0"); [reflexivity|].
    cbn [all_digits]. now rewrite Hc.
  - cbn [all_digits] in *. now rewrite Hc, IH.
Qed.

Lemma all_digits_substring (s : string) (n m : nat) :
  all_digits s = true -> all_digits (substring n m s) = true.
Proof.
  revert n m. induction s as [|c s IH]; intros n m H.
  - now destruct n, m.
  - cbn [all_digits] in H. apply Bool.andb_true_iff in H as [Hc Hs].
    destruct n; destruct m; cbn [substring all_digits]; trivial.
    + rewrite Hc. now apply IH.
    + now apply IH.
    + now apply IH.
Qed.

Lemma no_E_append (a b : string) :
  all_digits a = true -> starts_with_E b = false -> starts_with_E (a ++ b) = false.
Proof.
  destruct a as [|c a]; [trivial|]. cbn [all_digits append starts_with_E].
  intros H _. apply Bool.andb_true_iff in H as [Hc _].
  now apply is_digit_not_E.
Qed.

Lemma no_E_repeat0 (n : nat) : starts_with_E (JSString.repeat0 n) = false.
Proof. now destruct n. Qed.

Lemma toString_pos_no_E (m : positive) (e : Z) :
  starts_with_E (toString_pos m e) = false.
Proof.
  unfold toString_pos.
  destruct (shortest 17 _ _ _ _ 1) as [sd j].
  pose proof (all_digits_strip _ (all_digits_of_Z sd)) as D.
  cbv zeta.
  repeat match goal with
         | |- context [if ?b then _ else _] => destruct b
         end;
    repeat (apply no_E_append;
            [first [exact D | now apply all_digits_substring] |]);
    try apply no_E_repeat0; reflexivity.
Qed.

(** A number is never rendered with a leading [E]. *)
Lemma toString_no_E (v : number) : starts_with_E (toString v) = false.
Proof.
  destruct v as [s|[|]| |[|] m e]; try reflexivity.
  cbn [toString append]. apply toString_pos_no_E.
Qed.

Lemma toString_not_Error (v : number) : toString v <> "Error".
Proof.
  intros E. pose proof (toString_no_E v) as H. rewrite E in H. discriminate.
Qed.

Lemma prefix_Error_cases (d : string) :
  String.prefix d "Error" = true ->
  d = "" \/ d = "E" \/ d = "Er" \/ d = "Err" \/ d = "Erro" \/ d = "Error".
Proof.
  destruct d as [|c1 d]; [tauto|]. cbn [String.prefix].
  destruct (ascii_dec c1 "E") as [->|]; [|discriminate].
  destruct d as [|c2 d]; [tauto|]. cbn [String.prefix].
  destruct (ascii_dec c2 "r") as [->|]; [|discriminate].
  destruct d as [|c3 d]; [tauto|]. cbn [String.prefix].
  destruct (ascii_dec c3 "r") as [->|]; [|discriminate].
  destruct d as [|c4 d]; [tauto|]. cbn [String.prefix].
  destruct (ascii_dec c4 "o") as [->|]; [|discriminate].
  destruct d as [|c5 d]; [tauto|]. cbn [String.prefix].
  destruct (ascii_dec c5 "r") as [->|]; [|discriminate].
  destruct d as [|c6 d]; [tauto|discriminate].
Qed.

Lemma starts_with_E_append (a b : string) :
  a <> "" -> starts_with_E (a ++ b) = starts_with_E a.
Proof. destruct a; [congruence | reflexivity]. Qed.

Lemma starts_with_E_slice (s : string) :
  starts_with_E (JSString.slice s 0 (-1)) = true -> starts_with_E s = true.
Proof.
  destruct (String.eqb_spec s "") as [->|Hne]; [trivial|].
  destruct (string_snoc s Hne) as (front & c & ->). rewrite slice_snoc.
  intros H. rewrite starts_with_E_append; [exact H|].
  intros ->. discriminate.
Qed.

(** The displays [performOperation] can leave. *)
Lemma performOperation_display (next : string) (s : CalculatorState) :
  performOperation next s = s
  \/ (waitingForNewValue (performOperation next s) = true
      /\ (display (performOperation next s) = display s
          \/ display (performOperation next s) = "Error"
          \/ exists r, display (performOperation next s) = toString r)).
Proof.
  unfold performOperation.
  destruct (previousValue s) as [p|]; [|right; split; [reflexivity|now left]].
  destruct (truthy_op (operation s) && waitingForNewValue s) eqn:G.
  - apply Bool.andb_true_iff in G as [_ Hw].
    right. split; [exact Hw | now left].
  - destruct (operation s) as [o|]; [|now left]. unfold case_eq_op.
    destruct (o =? op_plus)%string; [right; split; [reflexivity|right; right; eexists; reflexivity]|].
    destruct (o =? op_minus)%string; [right; split; [reflexivity|right; right; eexists; reflexivity]|].
    destruct (o =? op_times)%string; [right; split; [reflexivity|right; right; eexists; reflexivity]|].
    destruct (o =? op_divide)%string; [|now left].
    destruct (strict_eq _ zero); right; split; try reflexivity;
      [right; now left | right; right; eexists; reflexivity].
Qed.

(** The displays [calculate] can leave. *)
Lemma calculate_display (s : CalculatorState) :
  calculate s = s
  \/ (waitingForNewValue (calculate s) = true
      /\ (display (calculate s) = "Error"
          \/ exists r, display (calculate s) = toString r)).
Proof.
  unfold calculate.
  destruct (previousValue s) as [p|]; [destruct (operation s) as [o|]|].
  2, 3: destruct (truthy_op (lastOperation s)); [|now left];
    destruct (lastOperand s) as [d|]; [|now left];
    destruct (lastOperation s) as [o|]; [|now left].
  all: unfold case_eq_op;
    (destruct (o =? op_plus)%string;
     [right; split; [reflexivity|right; eexists; reflexivity]|]);
    (destruct (o =? op_minus)%string;
     [right; split; [reflexivity|right; eexists; reflexivity]|]);
    (destruct (o =? op_times)%string;
     [right; split; [reflexivity|right; eexists; reflexivity]|]);
    (destruct (o =? op_divide)%string; [|now left]);
    destruct (strict_eq _ zero); right; split; try reflexivity;
    [now left | right; eexists; reflexivity].
Qed.

Lemma sentinel_ok_step (s : CalculatorState) (e : event) :
  sentinel_ok s -> sentinel_ok (step s e).
Proof.
  unfold sentinel_ok. intros H.
  assert (N : waitingForNewValue s = false -> starts_with_E (display s) = false).
  { intros Hw. destruct (starts_with_E (display s)); [|reflexivity].
    destruct (H eq_refl) as [Hw' _]. congruence. }
  destruct e; cbn [step].
  - unfold inputNumber. destruct (waitingForNewValue s) eqn:Hw.
    + cbn [display]. destruct d; discriminate.
    + specialize (N eq_refl).
      destruct (_ || _); cbn [display]; [destruct d; discriminate|].
      destruct (display s) as [|c rest]; [destruct d; discriminate|].
      cbn [append starts_with_E] in *. congruence.
  - unfold inputDecimal. destruct (waitingForNewValue s) eqn:Hw.
    + discriminate.
    + specialize (N eq_refl).
      destruct (_ =? _); [|intros E; congruence]. cbn [display].
      destruct (display s) as [|c rest]; [discriminate|].
      cbn [append starts_with_E] in *. congruence.
  - destruct (performOperation_display (symbol o) s)
      as [-> | (Hw & [-> | [-> | (r & ->)]])]; trivial.
    + intros E. split; [exact Hw | now apply H].
    + intros _. now split.
    + rewrite toString_no_E. discriminate.
  - destruct (calculate_display s) as [-> | (Hw & [-> | (r & ->)])]; trivial.
    + intros _. now split.
    + rewrite toString_no_E. discriminate.
  - discriminate.
  - unfold backspaceKey. destruct (_ && _); cbn [display waitingForNewValue];
      [|discriminate].
    intros E. destruct (H (starts_with_E_slice _ E)) as [Hw Hp].
    split; [exact Hw|].
    destruct (prefix_Error_cases _ Hp) as [-> | [-> | [-> | [-> | [-> | ->]]]]];
      reflexivity.
  - unfold backspaceButton. cbn [display waitingForNewValue].
    unfold JSString.or_else.
    destruct (JSString.truthy (JSString.slice (display s) 0 (-1)));
      [|discriminate].
    intros E. destruct (H (starts_with_E_slice _ E)) as [Hw Hp].
    split; [exact Hw|].
    destruct (prefix_Error_cases _ Hp) as [-> | [-> | [-> | [-> | [-> | ->]]]]];
      reflexivity.
Qed.

Lemma reachable_sentinel_ok (s : CalculatorState) : reachable s -> sentinel_ok s.
Proof.
  induction 1 as [|s e _ IH]; [discriminate|]. now apply sentinel_ok_step.
Qed.

End Sentinel.

(** X11: in every reachable state that displays ["Error"],
    [waitingForNewValue] is set; so a digit replaces the sentinel and a
    decimal point starts ["0."]: the sentinel is never typed onto. *)
Theorem error_display_awaits_input (s : CalculatorState) :
  reachable s ->
  display s = "Error" ->
  waitingForNewValue s = true
  /\ (forall num, display (inputNumber num s) = num)
  /\ display (inputDecimal s) = "0.".
Proof.
  intros Hs E. pose proof (reachable_sentinel_ok s Hs) as K.
  unfold sentinel_ok in K. rewrite E in K. destruct (K eq_refl) as [Hw _].
  split; [exact Hw|]. unfold inputNumber, inputDecimal. rewrite Hw.
  now split.
Qed.

Lemma error_display_awaits_input_witness :
  reachable errorState
  /\ display errorState = "Error"
  /\ waitingForNewValue errorState = true
  /\ display (inputDecimal errorState) = "0.".
Proof.
  assert (Hs : reachable errorState) by (apply reachable_run; constructor).
  assert (E : display errorState = "Error") by reflexivity.
  pose proof (error_display_awaits_input errorState Hs E) as (H1 & _ & H3).
  repeat split; assumption.
Defined.

Lemma slice_not_Error_longer (d : string) :
  String.prefix d "Error" = true -> JSString.slice d 0 (-1) <> "Error".
Proof.
  intros Hp.
  destruct (prefix_Error_cases _ Hp) as [-> | [-> | [-> | [-> | [-> | ->]]]]];
    discriminate.
Qed.

(** X12: the sentinel comes from a division by zero only.  From a
    reachable state that does not display ["Error"], an event leaves
    ["Error"] on the display only if it is an operator or equals taking
    the division-by-zero branch of a pending division. *)
Theorem error_only_by_division (s : CalculatorState) (e : event) :
  reachable s ->
  display s <> "Error" ->
  display (step s e) = "Error" ->
  ((exists o, e = Operator o) /\ division_by_zero_pending s = true)
  \/ (e = Equals /\ equals_division_by_zero s = true).
Proof.
  intros Hs NE E.
  pose proof (reachable_well_formed s Hs) as W.
  pose proof (reachable_last_ok s Hs) as L.
  pose proof (reachable_sentinel_ok s Hs) as K.
  assert (B : JSString.slice (display s) 0 (-1) <> "Error").
  { intros F. unfold sentinel_ok in K.
    assert (S : starts_with_E (JSString.slice (display s) 0 (-1)) = true)
      by now rewrite F.
    destruct (K (starts_with_E_slice _ S)) as [_ Hp].
    exact (slice_not_Error_longer _ Hp F). }
  destruct e; cbn [step] in E.
  - unfold inputNumber in E. destruct (digit_key_char d) as (c & Ec & Hc).
    rewrite Ec in E.
    destruct (waitingForNewValue s); [discriminate E|].
    destruct (_ || _); [discriminate E|]. cbn [display] in E.
    change "Error" with ("Erro" ++ String "r" "") in E.
    apply snoc_inj in E as [_ ->]. discriminate Hc.
  - unfold inputDecimal in E.
    destruct (waitingForNewValue s); [discriminate E|].
    destruct (_ =? _); [|contradiction]. cbn [display] in E.
    change "Error" with ("Erro" ++ String "r" "") in E.
    apply snoc_inj in E as [_ E]. discriminate E.
  - destruct (performOperation_cases s (symbol o) W)
      as [(_ & F) | [(p & _ & _ & F) | [(p & op & r & _ & _ & _ & _ & F) | (G & _)]]].
    + rewrite F in E. contradiction.
    + rewrite F in E. contradiction.
    + rewrite F in E. elim (toString_not_Error _ E).
    + left. split; [now exists o | exact G].
  - unfold well_formed in W. unfold equals_division_by_zero.
    destruct (previousValue s) as [p|] eqn:Hp;
      destruct (operation s) as [op|] eqn:Ho; try contradiction.
    + destruct (compute op p (parseFloat (display s))) as [r|] eqn:Hc.
      * rewrite (calculate_pending s op p r Hp Ho Hc) in E.
        elim (toString_not_Error _ E).
      * destruct (compute_None _ _ _ W Hc) as [-> Hz].
        right. split; [reflexivity|]. now rewrite Hz.
    + exfalso. unfold last_ok in L.
      destruct (lastOperation s) as [lo|] eqn:Hl;
        destruct (lastOperand s) as [d|] eqn:Hd; try contradiction.
      * destruct L as [Lv Lz].
        destruct (compute lo (parseFloat (display s)) d) as [r|] eqn:Hc.
        -- rewrite (calculate_repeat s lo d r (or_introl Hp) Hl Hd Hc) in E.
           elim (toString_not_Error _ E).
        -- destruct (compute_None _ _ _ Lv Hc) as [-> Hz].
           rewrite (Lz eq_refl) in Hz. discriminate.
      * rewrite (calculate_nothing s (or_introl Hp) (or_introl Hl)) in E.
        contradiction.
  - discriminate E.
  - unfold backspaceKey in E. destruct (_ && _); cbn [display] in E;
      [contradiction | discriminate E].
  - unfold backspaceButton, JSString.or_else in E. cbn [display] in E.
    destruct (JSString.truthy _); [contradiction | discriminate E].
Qed.

Lemma error_only_by_division_witness :
  reachable divideByZeroState
  /\ display divideByZeroState <> "Error"
  /\ display (step divideByZeroState Equals) = "Error"
  /\ equals_division_by_zero divideByZeroState = true.
Proof.
  assert (Hs : reachable divideByZeroState) by (apply reachable_run; constructor).
  assert (NE : display divideByZeroState <> "Error") by discriminate.
  assert (E : display (step divideByZeroState Equals) = "Error") by reflexivity.
  destruct (error_only_by_division divideByZeroState Equals Hs NE E)
    as [((o & F) & _) | (_ & G)]; [discriminate F|].
  repeat split; assumption.
Defined.

(** ** The keyboard *)

Lemma not_digit_range (c : ascii) (rest : string) :
  JSString.is_digit c = false ->
  JSString.ge (String c rest) "0" && JSString.le (String c rest) "9" = false.
Proof.
  destruct c as [[] [] [] [] [] [] [] []]; intros H; try discriminate H;
    reflexivity.
Qed.

(** X13: a key that does not start with a digit and is none of the
    eleven bound keys leaves the state as it is. *)
Theorem unbound_key_does_nothing (key : string) (s : CalculatorState) :
  first_is_digit key = false ->
  ~ In key bound_keys ->
  handleKeyPress key s = s.
Proof.
  intros Hd Hn.
  assert (F : forall k, In k bound_keys -> (key =? k)%string = false).
  { intros k Hk. apply String.eqb_neq. intros ->. contradiction. }
  unfold handleKeyPress.
  replace (JSString.ge key "0" && JSString.le key "9") with false.
  - rewrite !F; [reflexivity | | | | | | | | | | | ]; simpl; tauto.
  - symmetry. destruct key as [|c rest]; [reflexivity|].
    now apply not_digit_range.
Qed.

Lemma unbound_key_does_nothing_witness :
  first_is_digit "Shift" = false
  /\ ~ In "Shift" bound_keys
  /\ handleKeyPress "Shift" threePlusFourState = threePlusFourState.
Proof.
  assert (Hd : first_is_digit "Shift" = false) by reflexivity.
  assert (Hn : ~ In "Shift" bound_keys).
  { simpl. intros H.
    repeat (destruct H as [H|H]; [discriminate H|]). exact H. }
  pose proof (unbound_key_does_nothing "Shift" threePlusFourState Hd Hn) as H.
  repeat split; assumption.
Defined.

(** X14: the keyboard runs the updaters of the buttons: the key of an
    event gives the step of that event ([*] is [×], [/] is [÷], [Enter]
    is equals, [Escape] is clear), and [=], [c] and [C] are second keys
    for equals and clear. *)
Theorem keyboard_runs_button_updaters
    (e : event) (key : string) (s : CalculatorState) :
  event_key e = Some key ->
  handleKeyPress key s = step s e
  /\ handleKeyPress "=" s = step s Equals
  /\ handleKeyPress "c" s = step s Clear
  /\ handleKeyPress "C" s = step s Clear.
Proof.
  intros H. split; [now apply handleKeyPress_step|]. repeat split.
Qed.

Lemma keyboard_runs_button_updaters_witness :
  event_key (Operator Divide) = Some "/"
  /\ handleKeyPress "/" fivePlusState = performOperation op_divide fivePlusState.
Proof.
  assert (H : event_key (Operator Divide) = Some "/") by reflexivity.
  pose proof (keyboard_runs_button_updaters (Operator Divide) "/" fivePlusState H)
    as (H1 & _).
  split; [exact H | exact H1].
Defined.

(** ** The rendered lines *)

(** X15: in every reachable state the secondary line is rendered exactly
    when an operation is pending, and it reads the formatted staged
    operand, a space and the pending operator. *)
Theorem secondary_line_shows_pending
    (toExponential toLocaleString_enUS : number -> Z -> string)
    (s : CalculatorState) :
  reachable s ->
  (secondaryLine toExponential toLocaleString_enUS s = None
   <-> operation s = None)
  /\ (forall p o,
        previousValue s = Some p -> operation s = Some o ->
        secondaryLine toExponential toLocaleString_enUS s
        = Some (formatDisplay toExponential toLocaleString_enUS (toString p)
                ++ " " ++ o)).
Proof.
  intros Hs. pose proof (reachable_well_formed s Hs) as W.
  unfold well_formed in W. unfold secondaryLine.
  destruct (previousValue s) as [p|]; destruct (operation s) as [o|];
    try contradiction.
  - assert (T : JSString.truthy o = true) by exact (truthy_operator o W).
    rewrite T. split; [split; discriminate|].
    intros p' o' E1 E2. inversion E1. inversion E2. reflexivity.
  - split; [tauto | discriminate].
Qed.

Lemma secondary_line_shows_pending_witness :
  reachable threePlusFourState
  /\ previousValue threePlusFourState = Some (of_Z 3)
  /\ operation threePlusFourState = Some op_plus
  /\ secondaryLine (fun _ _ => "") (fun _ _ => "") threePlusFourState
     = Some "3 +"
  /\ secondaryLine (fun _ _ => "") (fun _ _ => "") (calculate threePlusFourState)
     = None.
Proof.
  assert (Hs : reachable threePlusFourState) by (apply reachable_run; constructor).
  assert (Hp : previousValue threePlusFourState = Some (of_Z 3)) by reflexivity.
  assert (Ho : operation threePlusFourState = Some op_plus) by reflexivity.
  pose proof (proj2 (secondary_line_shows_pending (fun _ _ => "") (fun _ _ => "")
                       threePlusFourState Hs) _ _ Hp Ho) as H.
  split; [exact Hs|]. split; [exact Hp|]. split; [exact Ho|].
  split; [rewrite H; vm_compute; reflexivity | vm_compute; reflexivity].
Defined.

(** ** Numbers are never rendered as the empty string *)

Section Rendering.

Lemma digit_value_digit_char (d : Z) :
  0 <= d < 10 -> JSString.digit_value (JSString.digit_char d) = d.
Proof.
  intros B.
  assert (C : d = 0 \/ d = 1 \/ d = 2 \/ d = 3 \/ d = 4 \/ d = 5 \/ d = 6
              \/ d = 7 \/ d = 8 \/ d = 9) by lia.
  destruct C as [-> | [-> | [-> | [-> | [-> | [-> | [-> | [-> | [-> | ->]]]]]]]]];
    reflexivity.
Qed.

Lemma digits_value_fuel (fuel : nat) (n : Z) (acc : string) :
  0 <= n -> n < 2 ^ Z.of_nat fuel ->
  JSString.digits_value_acc (JSString.digits_fuel fuel n acc) 0
  = JSString.digits_value_acc acc n.
Proof.
  revert n acc. induction fuel as [|f IH]; intros n acc Hn Hf.
  - cbn [JSString.digits_fuel]. change (2 ^ Z.of_nat 0) with 1 in Hf.
    replace n with 0 by lia. reflexivity.
  - cbn [JSString.digits_fuel].
    pose proof (Z.mod_pos_bound n 10 eq_refl) as B.
    pose proof (Z.div_mod n 10 ltac:(lia)) as D.
    destruct (Z.ltb_spec n 10) as [L|L].
    + cbn [JSString.digits_value_acc]. rewrite digit_value_digit_char by exact B.
      rewrite Z.mod_small by lia. reflexivity.
    + rewrite IH.
      * cbn [JSString.digits_value_acc].
        rewrite digit_value_digit_char by exact B. f_equal. lia.
      * apply Z.div_pos; lia.
      * rewrite Nat2Z.inj_succ, Z.pow_succ_r in Hf by lia.
        apply Z.div_lt_upper_bound; lia.
Qed.

Lemma of_Z_fuel (n : Z) :
  0 <= n -> n < 2 ^ Z.of_nat (S (Z.to_nat (Z.log2 n))).
Proof.
  intros Hn. rewrite Nat2Z.inj_succ, Z2Nat.id by apply Z.log2_nonneg.
  destruct (Z.eq_dec n 0) as [->|Hz]; [reflexivity|].
  apply Z.log2_spec. lia.
Qed.

(** Printing a natural number and reading its digits gives it back. *)
Lemma digits_value_of_Z (n : Z) :
  0 <= n -> JSString.digits_value (JSString.of_Z n) = n.
Proof.
  intros Hn. unfold JSString.digits_value, JSString.of_Z.
  now rewrite digits_value_fuel by (trivial; now apply of_Z_fuel).
Qed.

Lemma strip_empty_value (s : string) :
  JSString.strip_trailing_zeros s = "" -> JSString.digits_value_acc s 0 = 0.
Proof.
  induction s as [|c s IH]; [reflexivity|].
  cbn [JSString.strip_trailing_zeros JSString.digits_value_acc].
  destruct (JSString.strip_trailing_zeros s); [|discriminate].
  destruct (Ascii.eqb_spec c "0") as [->|]; [|discriminate].
  intros _. now apply IH.
Qed.

Lemma strip_of_Z_nonempty (n : Z) :
  1 <= n -> JSString.strip_trailing_zeros (JSString.of_Z n) <> "".
Proof.
  intros Hn E. apply strip_empty_value in E.
  fold (JSString.digits_value (JSString.of_Z n)) in E.
  rewrite digits_value_of_Z in E; lia.
Qed.

Lemma digits_fuel_length (fuel : nat) (n : Z) (acc : string) :
  1 <= n -> n < 2 ^ Z.of_nat fuel ->
  exists d, 1 <= d
    /\ Z.of_nat (String.length (JSString.digits_fuel fuel n acc))
       = Z.of_nat (String.length acc) + d
    /\ 10 ^ (d - 1) <= n < 10 ^ d.
Proof.
  revert n acc. induction fuel as [|f IH]; intros n acc Hn Hf.
  - change (2 ^ Z.of_nat 0) with 1 in Hf. lia.
  - cbn [JSString.digits_fuel].
    destruct (Z.ltb_spec n 10) as [L|L].
    + exists 1. cbn [String.length]. repeat split; try lia.
    + destruct (IH (n / 10) (String (JSString.digit_char (n mod 10)) acc))
        as (d & Hd & El & Lo & Hi).
      * apply Z.div_le_lower_bound; lia.
      * rewrite Nat2Z.inj_succ, Z.pow_succ_r in Hf by lia.
        apply Z.div_lt_upper_bound; lia.
      * exists (d + 1). cbn [String.length] in El.
        pose proof (Z.div_mod n 10 ltac:(lia)) as D.
        pose proof (Z.mod_pos_bound n 10 eq_refl) as B.
        assert (E1 : 10 ^ (d + 1 - 1) = 10 * 10 ^ (d - 1)).
        { replace (d + 1 - 1) with (Z.succ (d - 1)) by lia.
          apply Z.pow_succ_r. lia. }
        assert (E2 : 10 ^ (d + 1) = 10 * 10 ^ d) by (apply Z.pow_succ_r; lia).
        rewrite E1, E2, El, Nat2Z.inj_succ. repeat split; lia.
Qed.

(** The number of decimal digits of a positive integer. *)
Lemma num_digits_spec (n : Z) :
  1 <= n ->
  1 <= num_digits n /\ 10 ^ (num_digits n - 1) <= n < 10 ^ num_digits n.
Proof.
  intros Hn. unfold num_digits, JSString.of_Z.
  destruct (digits_fuel_length _ n "" Hn (of_Z_fuel n ltac:(lia)))
    as (d & Hd & El & B).
  cbn [String.length] in El. rewrite El. now rewrite Z.add_0_l.
Qed.

Lemma scale_positive (N Dn j : Z) :
  0 < N -> 0 < Dn -> 0 < fst (scale N Dn j) /\ 0 < snd (scale N Dn j).
Proof.
  intros HN HD. unfold scale.
  destruct (Z.leb_spec 0 j); cbn [fst snd]; split; trivial;
    apply Z.mul_pos_pos; trivial; apply Z.pow_pos_nonneg; lia.
Qed.

Lemma at_least_pow10_mono (N Dn j1 j2 : Z) :
  0 < N -> 0 < Dn -> j2 <= j1 ->
  at_least_pow10 N Dn j1 -> at_least_pow10 N Dn j2.
Proof.
  intros HN HD Hj. unfold at_least_pow10, scale.
  destruct (Z.leb_spec 0 j1) as [P1|P1]; destruct (Z.leb_spec 0 j2) as [P2|P2];
    cbn [fst snd]; intros H; try lia.
  - assert (10 ^ j2 <= 10 ^ j1) by (apply Z.pow_le_mono_r; lia).
    assert (0 < 10 ^ j2) by (apply Z.pow_pos_nonneg; lia). nia.
  - assert (0 < 10 ^ j1) by (apply Z.pow_pos_nonneg; lia).
    assert (0 < 10 ^ (- j2)) by (apply Z.pow_pos_nonneg; lia). nia.
  - assert (10 ^ (- j1) <= 10 ^ (- j2)) by (apply Z.pow_le_mono_r; lia).
    assert (0 < 10 ^ (- j1)) by (apply Z.pow_pos_nonneg; lia). nia.
Qed.

(** [decimal_exponent] is not too large: [x >= 10^(n-1)]. *)
Lemma decimal_exponent_lower (N Dn : Z) :
  0 < N -> 0 < Dn -> at_least_pow10 N Dn (decimal_exponent N Dn - 1).
Proof.
  intros HN HD. unfold decimal_exponent.
  destruct (num_digits_spec N ltac:(lia)) as (Ha & La & _).
  destruct (num_digits_spec Dn ltac:(lia)) as (Hb & _ & Ub).
  set (a := num_digits N) in *. set (b := num_digits Dn) in *.
  destruct (scale N Dn (a - b)) as [u v] eqn:Es.
  destruct (Z.leb_spec v u) as [L|L].
  - replace (a - b + 1 - 1) with (a - b) by lia.
    unfold at_least_pow10. now rewrite Es.
  - unfold at_least_pow10, scale.
    destruct (Z.leb_spec 0 (a - b - 1)) as [P|P]; cbn [fst snd].
    + assert (E : 10 ^ (a - 1) = 10 ^ b * 10 ^ (a - b - 1)).
      { rewrite <- Z.pow_add_r by lia. f_equal. lia. }
      assert (0 < 10 ^ (a - b - 1)) by (apply Z.pow_pos_nonneg; lia). nia.
    + assert (E : 10 ^ b = 10 ^ (a - 1) * 10 ^ (- (a - b - 1))).
      { rewrite <- Z.pow_add_r by lia. f_equal. lia. }
      assert (0 < 10 ^ (- (a - b - 1))) by (apply Z.pow_pos_nonneg; lia). nia.
Qed.

Lemma candidate_positive (m : positive) (e N Dn n k sd : Z) :
  0 < N -> 0 < Dn ->
  candidate (S754_finite false m e) N Dn n k = Some sd -> 1 <= sd.
Proof.
  intros HN HD. unfold candidate.
  destruct (scale_positive N Dn (n - k) HN HD) as [Hu Hv].
  destruct (scale N Dn (n - k)) as [u v]. cbn [fst snd] in Hu, Hv. cbv zeta.
  assert (L0 : 0 <= u / v) by (apply Z.div_pos; lia).
  assert (LZ : strict_eq (of_decimal false (u / v) (n - k)) (S754_finite false m e)
               = true -> 1 <= u / v).
  { intros H. destruct (Z.eq_dec (u / v) 0) as [Z0|]; [|lia].
    rewrite Z0 in H. discriminate H. }
  destruct (strict_eq (of_decimal false (u / v) (n - k)) _) eqn:Lo;
    destruct (strict_eq (of_decimal false (u / v + 1) (n - k)) _);
    cbn [andb]; intros E; try discriminate E; injection E as <-;
    try specialize (LZ eq_refl); try lia.
  match goal with
  | |- context [?a ?= v] => destruct (a ?= v)
  end; [destruct (Z.even (u / v))| |]; lia.
Qed.

Lemma shortest_positive (fuel : nat) (m : positive) (e N Dn n k : Z) :
  0 < N -> 0 < Dn -> 1 <= k ->
  at_least_pow10 N Dn (n - 1) ->
  1 <= fst (shortest fuel (S754_finite false m e) N Dn n k).
Proof.
  intros HN HD. revert k. induction fuel as [|f IH]; intros k Hk Hl;
    cbn [shortest].
  - pose proof (at_least_pow10_mono N Dn (n - 1) (n - k) HN HD ltac:(lia) Hl) as A.
    unfold at_least_pow10 in A.
    destruct (scale_positive N Dn (n - k) HN HD) as [Hu Hv].
    destruct (scale N Dn (n - k)) as [u v]. cbn [fst snd] in *.
    apply Z.div_le_lower_bound; lia.
  - destruct (candidate _ N Dn n k) as [sd|] eqn:C.
    + cbn [fst]. exact (candidate_positive m e N Dn n k sd HN HD C).
    + apply IH; [lia | exact Hl].
Qed.

Lemma append_nonempty_l (a b : string) : a <> "" -> a ++ b <> "".
Proof. destruct a; [congruence | discriminate]. Qed.

Lemma append_nonempty_r (a b : string) : b <> "" -> a ++ b <> "".
Proof. destruct a; [trivial | discriminate]. Qed.

Lemma toString_pos_nonempty (m : positive) (e : Z) : toString_pos m e <> "".
Proof.
  unfold toString_pos.
  set (N := if 0 <=? e then Z.pos m * 2 ^ e else Z.pos m).
  set (Dn := if 0 <=? e then 1 else 2 ^ (- e)).
  assert (HN : 0 < N).
  { unfold N. destruct (Z.leb_spec 0 e); [|lia].
    apply Z.mul_pos_pos; [lia | apply Z.pow_pos_nonneg; lia]. }
  assert (HD : 0 < Dn).
  { unfold Dn. destruct (Z.leb_spec 0 e); [lia|].
    apply Z.pow_pos_nonneg; lia. }
  pose proof (shortest_positive 17 m e N Dn (decimal_exponent N Dn) 1 HN HD
                (Z.le_refl 1) (decimal_exponent_lower N Dn HN HD)) as P.
  destruct (shortest 17 _ N Dn _ 1) as [sd j]. cbn [fst] in P.
  pose proof (strip_of_Z_nonempty sd P) as D.
  cbv zeta.
  repeat match goal with
         | |- context [if ?b then _ else _] => destruct b
         end;
    try (apply append_nonempty_l; exact D);
    try discriminate.
  all: apply append_nonempty_r; discriminate.
Qed.

(** No number is rendered as the empty string. *)
Lemma toString_nonempty (v : number) : toString v <> "".
Proof.
  destruct v as [s|[|]| |[|] m e]; try discriminate.
  cbn [toString append]. apply toString_pos_nonempty.
Qed.

Lemma display_nonempty_step (s : CalculatorState) (e : event) :
  display s <> "" -> display (step s e) <> "".
Proof.
  intros H. destruct e; cbn [step].
  - unfold inputNumber.
    destruct (waitingForNewValue s); [destruct d; discriminate|].
    destruct (_ || _); cbn [display]; [destruct d; discriminate|].
    now apply append_nonempty_l.
  - unfold inputDecimal.
    destruct (waitingForNewValue s); [discriminate|].
    destruct (_ =? _); [|exact H]. cbn [display]. now apply append_nonempty_l.
  - destruct (performOperation_display (symbol o) s)
      as [-> | (_ & [-> | [-> | (r & ->)]])]; trivial; [discriminate|].
    apply toString_nonempty.
  - destruct (calculate_display s) as [-> | (_ & [-> | (r & ->)])]; trivial;
      [discriminate|]. apply toString_nonempty.
  - discriminate.
  - unfold backspaceKey.
    destruct (Z.ltb_spec 1 (Z.of_nat (String.length (display s)))) as [L|L];
      [|discriminate].
    destruct (negb _); cbn [andb display]; [|discriminate].
    destruct (length_gt_1_snoc (display s)) as (front & c & Hf & E); [lia|].
    now rewrite E, slice_snoc.
  - unfold backspaceButton, JSString.or_else. cbn [display].
    destruct (JSString.slice _ 0 (-1)); discriminate.
Qed.

End Rendering.

(** X16: the display is never empty: not in the initial state, and no
    event empties a display that is not empty; a computed result is
    never rendered as the empty string. *)
Theorem display_never_empty :
  (forall s : CalculatorState, reachable s -> display s <> "")
  /\ (forall (s : CalculatorState) (e : event),
        display s <> "" -> display (step s e) <> "")
  /\ (forall v : number, toString v <> "").
Proof.
  split; [|split].
  - induction 1 as [|s e _ IH]; [discriminate|].
    now apply display_nonempty_step.
  - exact display_nonempty_step.
  - exact toString_nonempty.
Qed.

Lemma display_never_empty_witness :
  reachable onePointTwoState
  /\ display onePointTwoState <> ""
  /\ display (run [Backspace; Backspace; Backspace; Backspace] onePointTwoState)
     = "0".
Proof.
  assert (Hs : reachable onePointTwoState) by (apply reachable_run; constructor).
  pose proof (proj1 display_never_empty onePointTwoState Hs) as H.
  split; [exact Hs|]. split; [exact H | reflexivity].
Defined.

(** ** Decimal points, in every reachable state *)

Section DecimalPoints.

Lemma is_digit_not_dot (c : ascii) :
  JSString.is_digit c = true -> Ascii.eqb c "." = false.
Proof.
  destruct c as [[] [] [] [] [] [] [] []]; intros H; try discriminate H;
    reflexivity.
Qed.

Lemma count_dot_digits (s : string) :
  all_digits s = true -> JSString.count "." s = 0%nat.
Proof.
  induction s as [|c s IH]; [reflexivity|]. cbn [all_digits JSString.count].
  intros H. apply Bool.andb_true_iff in H as [Hc Hs].
  now rewrite (is_digit_not_dot c Hc), (IH Hs).
Qed.

Lemma all_digits_repeat0 (n : nat) : all_digits (JSString.repeat0 n) = true.
Proof. induction n; [reflexivity | exact IHn]. Qed.

Lemma count_dot_toString_pos (m : positive) (e : Z) :
  (JSString.count "." (toString_pos m e) <= 1)%nat.
Proof.
  unfold toString_pos.
  destruct (shortest 17 _ _ _ _ 1) as [sd j].
  pose proof (all_digits_strip _ (all_digits_of_Z sd)) as D.
  cbv zeta.
  repeat match goal with
         | |- context [if ?b then _ else _] => destruct b
         end;
    rewrite ?count_append;
    repeat match goal with
           | |- context [JSString.count "." (substring ?a ?b ?x)] =>
               rewrite (count_dot_digits (substring a b x))
                 by (apply all_digits_substring; exact D)
           | |- context [JSString.count "." (JSString.repeat0 ?n)] =>
               rewrite (count_dot_digits (JSString.repeat0 n))
                 by apply all_digits_repeat0
           | |- context [JSString.count "." (JSString.of_Z ?n)] =>
               rewrite (count_dot_digits (JSString.of_Z n))
                 by apply all_digits_of_Z
           | |- context [JSString.count "."
                           (JSString.strip_trailing_zeros ?x)] =>
               rewrite (count_dot_digits (JSString.strip_trailing_zeros x))
                 by exact D
           end;
    cbn; lia.
Qed.

(** A number is rendered with at most one decimal point. *)
Lemma count_dot_toString (v : number) :
  (JSString.count "." (toString v) <= 1)%nat.
Proof.
  destruct v as [s|[|]| |[|] m e]; try (cbn; lia);
    cbn [toString]; rewrite count_append; cbn [JSString.count Ascii.eqb];
    pose proof (count_dot_toString_pos m e); simpl; lia.
Qed.

Lemma count_slice (s : string) :
  (JSString.count "." (JSString.slice s 0 (-1)) <= JSString.count "." s)%nat.
Proof.
  destruct (String.eqb_spec s "") as [->|Hne]; [reflexivity|].
  destruct (string_snoc s Hne) as (front & c & ->).
  rewrite slice_snoc, count_append. lia.
Qed.

Lemma one_dot_step (s : CalculatorState) (e : event) :
  (JSString.count "." (display s) <= 1)%nat ->
  (JSString.count "." (display (step s e)) <= 1)%nat.
Proof.
  intros H. destruct e; cbn [step].
  - unfold inputNumber.
    destruct (waitingForNewValue s); [destruct d; cbn; lia|].
    destruct (_ || _); cbn [display]; [destruct d; cbn; lia|].
    rewrite count_append, digit_key_no_dot. lia.
  - unfold inputDecimal.
    destruct (waitingForNewValue s); [cbn; lia|].
    destruct (Z.eqb_spec (JSString.indexOf (display s) ".") (-1)) as [E|_];
      [|exact H].
    apply indexOf_absent in E. cbn [display]. rewrite count_append, E.
    cbn. lia.
  - destruct (performOperation_display (symbol o) s)
      as [-> | (_ & [-> | [-> | (r & ->)]])]; trivial; [cbn; lia|].
    apply count_dot_toString.
  - destruct (calculate_display s) as [-> | (_ & [-> | (r & ->)])]; trivial;
      [cbn; lia|]. apply count_dot_toString.
  - cbn. lia.
  - unfold backspaceKey. destruct (_ && _); cbn [display]; [|cbn; lia].
    pose proof (count_slice (display s)). lia.
  - unfold backspaceButton, JSString.or_else. cbn [display].
    destruct (JSString.truthy _); [|cbn; lia].
    pose proof (count_slice (display s)). lia.
Qed.

End DecimalPoints.

(** X17: in every reachable state, whatever the events were (operators,
    results, backspaces included), the display holds at most one decimal
    point. *)
Theorem one_decimal_point_always (s : CalculatorState) :
  reachable s -> (JSString.count "." (display s) <= 1)%nat.
Proof.
  induction 1 as [|s e _ IH]; [cbn; lia|]. now apply one_dot_step.
Qed.

Lemma one_decimal_point_always_witness :
  reachable (run [Digit D1; Operator Divide; Digit D8; Equals; Backspace; Decimal]
               initialState)
  /\ display (run [Digit D1; Operator Divide; Digit D8; Equals] initialState)
     = "0.125"
  /\ (JSString.count "."
        (display (run [Digit D1; Operator Divide; Digit D8; Equals; Backspace;
                       Decimal] initialState)) <= 1)%nat.
Proof.
  assert (Hs : reachable (run [Digit D1; Operator Divide; Digit D8; Equals;
                               Backspace; Decimal] initialState))
    by (apply reachable_run; constructor).
  pose proof (one_decimal_point_always _ Hs) as H.
  split; [exact Hs|]. split; [reflexivity | exact H].
Defined.

(** ** Typing a number with a fraction *)

Section Fraction.

Lemma span_digits_dot (ip rest : string) :
  all_digits ip = true ->
  JSString.span_digits (ip ++ String "." rest) = (ip, String "." rest).
Proof.
  induction ip as [|c ip IH]; [reflexivity|].
  cbn [all_digits append JSString.span_digits]. intros H.
  apply Bool.andb_true_iff in H as [Hc Hs]. now rewrite Hc, (IH Hs).
Qed.

(** [parseFloat] on digits, a point and digits: the number nearest to
    the value of all the digits scaled by the length of the fraction. *)
Lemma parseFloat_fraction (ip fp : string) :
  all_digits ip = true -> ip <> "" -> all_digits fp = true ->
  parseFloat (ip ++ "." ++ fp)
  = of_decimal false (JSString.digits_value (ip ++ fp))
      (- Z.of_nat (String.length fp)).
Proof.
  intros Hi Hne Hf.
  destruct ip as [|c rest]; [congruence|].
  pose proof Hi as H'. cbn [all_digits] in H'.
  apply Bool.andb_true_iff in H' as [Hc _].
  destruct (is_digit_plain c Hc) as (Hs & Hp & Hm & HI).
  unfold parseFloat. cbn [append JSString.trim_start]. rewrite Hs, Hp, Hm.
  unfold parse_unsigned. cbn [String.prefix].
  destruct (ascii_dec "I" c) as [E|_]; [now elim HI|].
  change (String c (rest ++ String "." fp))
    with (String c rest ++ String "." fp).
  rewrite (span_digits_dot _ fp Hi).
  replace (Ascii.eqb "." ".") with true by reflexivity.
  rewrite (span_digits_all _ Hf). cbn [String.eqb andb parse_exponent].
  reflexivity.
Qed.

Lemma string_append_assoc (a b c : string) : (a ++ b) ++ c = a ++ (b ++ c).
Proof. induction a as [|x a IH]; cbn [append]; [reflexivity | now rewrite IH]. Qed.

Lemma entering_fraction_start (s : CalculatorState) (v : Z) :
  entering s v ->
  entering_fraction (inputDecimal s) (display s) ""
  /\ JSString.digits_value (display s) = v.
Proof.
  intros (Hw & Ha & Hne & Hv). split; [|exact Hv].
  unfold entering_fraction, inputDecimal. rewrite Hw.
  replace (JSString.indexOf (display s) "." =? -1) with true.
  - now repeat split.
  - symmetry. apply Z.eqb_eq, indexOf_absent. now apply count_dot_digits.
Qed.

Lemma entering_fraction_digit (s : CalculatorState) (ip fp : string) (d : digit) :
  entering_fraction s ip fp ->
  entering_fraction (inputNumber (digit_key d) s) ip (fp ++ digit_key d).
Proof.
  intros (Hw & Hi & Hne & Hf & E).
  destruct (digit_key_value d) as (H1 & _ & _).
  unfold entering_fraction, inputNumber. rewrite Hw, E.
  assert (N0 : (ip ++ "." ++ fp =? "0")%string = false).
  { apply String.eqb_neq. intros F.
    apply (f_equal (JSString.count ".")) in F.
    rewrite count_append in F. cbn in F. lia. }
  assert (NE : (ip ++ "." ++ fp =? "Error")%string = false).
  { apply String.eqb_neq. intros F.
    apply (f_equal (JSString.count ".")) in F.
    rewrite count_append in F. cbn in F. lia. }
  rewrite N0, NE. cbn [orb display waitingForNewValue].
  repeat split; trivial.
  - now rewrite all_digits_append, Hf, H1.
  - now rewrite string_append_assoc.
Qed.

Lemma entering_fraction_run (fs : list digit) (s : CalculatorState)
    (ip fp : string) :
  entering_fraction s ip fp ->
  exists fp', entering_fraction (run (map Digit fs) s) ip fp'
    /\ String.length fp' = (String.length fp + List.length fs)%nat
    /\ forall acc,
         JSString.digits_value_acc fp' acc
         = fold_left (fun a d => 10 * a + digit_Z d) fs
             (JSString.digits_value_acc fp acc).
Proof.
  revert s fp. induction fs as [|d fs IH]; intros s fp H.
  - exists fp. split; [exact H|]. split; [cbn; lia | reflexivity].
  - destruct (IH _ _ (entering_fraction_digit s ip fp d H)) as (fp' & H' & L & V).
    exists fp'. split; [exact H'|]. split.
    + rewrite L, length_append. destruct d; cbn; lia.
    + intros acc. rewrite V, digits_value_acc_append. cbn [fold_left].
      destruct d; reflexivity.
Qed.

End Fraction.

(** X18: typing digits, a decimal point and digits enters that decimal:
    from the initial state the display after [ds], the point and [fs]
    parses to the number nearest to the integer written by [ds] followed
    by [fs], divided by ten to the number of digits in [fs]. *)
Theorem typed_decimal_parses (ds fs : list digit) :
  parseFloat
    (display (run (map Digit ds ++ Decimal :: map Digit fs)%list initialState))
  = of_decimal false (digits_Z (ds ++ fs)%list) (- Z.of_nat (List.length fs)).
Proof.
  assert (H0 : entering (run (map Digit ds) initialState) (digits_Z ds)).
  { apply entering_run. now repeat split. }
  destruct (entering_fraction_start _ _ H0) as [HF Hv].
  destruct (entering_fraction_run fs _ _ _ HF) as (fp' & (Hw & Hi & Hne & Hf & E) & L & V).
  unfold run in *. rewrite fold_left_app. cbn [fold_left step].
  fold (run (map Digit ds) initialState).
  fold (run (map Digit fs) (inputDecimal (run (map Digit ds) initialState))).
  unfold run in E. unfold run. rewrite E.
  rewrite (parseFloat_fraction _ fp' Hi Hne Hf), L. cbn [String.length Nat.add].
  f_equal. unfold JSString.digits_value.
  rewrite digits_value_acc_append, V. cbn [JSString.digits_value_acc].
  unfold JSString.digits_value in Hv. unfold run in Hv. rewrite Hv.
  unfold digits_Z. now rewrite fold_left_app.
Qed.

Example typed_decimal_sample :
  display (run [Digit D0; Digit D1; Digit D2; Decimal; Digit D5; Digit D0]
             initialState) = "12.50"
  /\ of_decimal false (digits_Z [D0; D1; D2; D5; D0]) (- 2) = parseFloat "12.5".
Proof. vm_compute. split; reflexivity. Qed.
